(** * tray-vpn-monitor: the status-resolution engine of [main.py]

    A shallow embedding of class [VPNWorker]: the interface scan, the
    connectivity prober, the resolution pass [perform_check], the debounced
    listener [_listen] and the lock that serialises passes.

    Conventions.
    - Text is modelled as [string], one character per code point below
      256; [strip] and [lower] are Python's [str.strip] and [str.lower]
      on that range.
    - Durations are integers in milliseconds (2.5 s = 2500, 1.2 s = 1200,
      0.2 s = 200; time-outs 3 s = 3000 and 5 s = 5000).
    - Everything the pass asks of its environment (directory listing,
      operstate files, HTTP outcomes, a primitive that raises) is read from a
      [World] carried in the machine state. *)

From stdpp Require Import base list strings relations gmap pretty.
From Stdlib Require Import ZArith Lia Ascii.

(** ** Text helpers (Python [str] methods used by the source) *)

Module Text.

(** Characters removed by [str.strip()], that is those for which
    [str.isspace] holds, among the code points below 256: TAB, LF, VT, FF,
    CR, FS, GS, RS, US, SPACE, NEL (U+0085) and NBSP (U+00A0). *)
Definition is_space (c : ascii) : bool :=
  let n := nat_of_ascii c in
  ((9 <=? n) && (n <=? 13)) || ((28 <=? n) && (n <=? 32))
  || (n =? 133) || (n =? 160).

Fixpoint lstrip (s : string) : string :=
  match s with
  | EmptyString => EmptyString
  | String c s' => if is_space c then lstrip s' else s
  end.

Fixpoint rstrip (s : string) : string :=
  match s with
  | EmptyString => EmptyString
  | String c s' =>
      let r := rstrip s' in
      if is_space c && String.eqb r "" then EmptyString else String c r
  end.

Definition strip (s : string) : string := rstrip (lstrip s).

(** [str.lower] on one code point below 256: the letters A-Z and the
    Latin-1 capitals U+00C0-U+00DE (the sign U+00D7 apart) move up by 32. *)
Definition lower_char (c : ascii) : ascii :=
  let n := nat_of_ascii c in
  if ((65 <=? n) && (n <=? 90))
     || ((192 <=? n) && (n <=? 222) && negb (n =? 215))
  then ascii_of_nat (n + 32) else c.

Fixpoint lower (s : string) : string :=
  match s with
  | EmptyString => EmptyString
  | String c s' => String (lower_char c) (lower s')
  end.

(** [startswith s p] is Python's [s.startswith(p)]. *)
Definition startswith (s p : string) : bool := String.prefix p s.

(** [contains w s] is Python's [w in s] on strings. *)
Fixpoint contains (w s : string) : bool :=
  String.prefix w s ||
  match s with
  | EmptyString => false
  | String _ s' => contains w s'
  end.

(** Truthiness of a Python string: non-empty. *)
Definition truthy (s : string) : bool := negb (String.eqb s "").

End Text.

(** ** Data model *)

(** The colour strings passed to [status_changed]. *)
Inductive Status := yellow | green | blue | red | grey.

#[global] Instance Status_eq_dec : EqDecision Status.
Proof. solve_decision. Defined.

(** The [source] argument of [perform_check]; the program only ever passes
    these four strings. *)
Inductive Source := Init | Auto | Manual | Toggle.

#[global] Instance Source_eq_dec : EqDecision Source.
Proof. solve_decision. Defined.

Definition source_str (s : Source) : string :=
  match s with
  | Init => "Init" | Auto => "Auto" | Manual => "Manual" | Toggle => "Toggle"
  end.

(** Fields of [VPNWorker] written by [__init__] (lines 20-24). *)
Record VPNWorker := mkWorker {
  enabled : bool;
  last_status : option Status;
  is_resolving : bool;
  api_count : nat
}.

(** Observable actions of the worker: the four Qt signals, plus the
    environment calls whose number and arguments the specification talks
    about. *)
Inductive Event :=
| StatusChanged (s : Status)
| LogAdded (msg : string)
| ApiCalled (n : nat)
| NotificationTimer (delay_ms : Z) (title message : string) (critical : bool)
| DebounceTimer (delay_ms : Z)
| HttpGet (url : string) (timeout_ms : Z)
| Sleep (ms : Z)
| ListDir (path : string)
| ReadFile (path : string).

#[global] Instance Event_eq_dec : EqDecision Event.
Proof. solve_decision. Defined.

(** What the environment answers during a run. *)
Record World := mkWorld {
  (** [os.listdir('/sys/class/net/')]; [None] when it raises. *)
  net_listing : option (list string);
  (** Content of [/sys/class/net/<iface>/operstate]; [None] when opening or
      reading raises. *)
  operstate : string -> option string;
  (** Outcomes of the successive [urlopen] calls on the connectivity
      endpoint, [true] for a response; an exhausted list answers failure. *)
  reach : list bool;
  (** Outcomes of the successive requests to the IP-echo endpoint:
      [inl body], the body decoded as UTF-8, or [inr e] when the request,
      the read or the decoding raises an [Exception] with text [e]. *)
  ip_echo : list (string + string);
  (** One entry per call of a primitive that no handler of its own guards
      (a signal emission, [time.sleep], [Timer.start]): [Some e] makes that
      call raise [Exception(e)]; an exhausted list raises nothing. *)
  faults : list (option string)
}.

Record Mach := mkMach {
  worker : VPNWorker;
  world : World;
  trace : list Event
}.

(** ** A state-and-exception monad for the worker's methods *)

Inductive Res (A : Type) :=
| Ok (a : A)
| Raise (e : string).
Arguments Ok {A} a.
Arguments Raise {A} e.

Definition M (A : Type) : Type := Mach -> Res A * Mach.

Definition ret {A} (a : A) : M A := fun m => (Ok a, m).

Definition bind {A B} (c : M A) (k : A -> M B) : M B :=
  fun m =>
    match c m with
    | (Ok a, m') => k a m'
    | (Raise e, m') => (Raise e, m')
    end.

(** [try: c  except Exception as e: h e]. *)
Definition try_except {A} (c : M A) (h : string -> M A) : M A :=
  fun m =>
    match c m with
    | (Ok a, m') => (Ok a, m')
    | (Raise e, m') => h e m'
    end.

Declare Scope worker_scope.
Delimit Scope worker_scope with worker.
Notation "x <- c ;; k" := (bind c (fun x => k))
  (at level 100, c at next level, right associativity) : worker_scope.
Notation "c ;; k" := (bind c (fun _ => k))
  (at level 100, right associativity) : worker_scope.
Open Scope worker_scope.

Definition get_worker : M VPNWorker := fun m => (Ok (worker m), m).

Definition set_worker (f : VPNWorker -> VPNWorker) : M unit :=
  fun m => (Ok tt, mkMach (f (worker m)) (world m) (trace m)).

Definition set_is_resolving (b : bool) : M unit :=
  set_worker (fun w => mkWorker (enabled w) (last_status w) b (api_count w)).

Definition set_last_status (s : option Status) : M unit :=
  set_worker (fun w => mkWorker (enabled w) s (is_resolving w) (api_count w)).

Definition set_api_count (n : nat) : M unit :=
  set_worker (fun w => mkWorker (enabled w) (last_status w) (is_resolving w) n).

Definition record (ev : Event) (m : Mach) : Mach :=
  mkMach (worker m) (world m) (trace m ++ [ev]).

Definition with_faults (fs : list (option string)) (w : World) : World :=
  mkWorld (net_listing w) (operstate w) (reach w) (ip_echo w) fs.

Definition with_reach (r : list bool) (w : World) : World :=
  mkWorld (net_listing w) (operstate w) r (ip_echo w) (faults w).

Definition with_ip_echo (r : list (string + string)) (w : World) : World :=
  mkWorld (net_listing w) (operstate w) (reach w) r (faults w).

Definition set_world (w : World) (m : Mach) : Mach :=
  mkMach (worker m) w (trace m).

(** The next entry of the fault stream, and the machine once it is used. *)
Definition next_fault (m : Mach) : option string :=
  match faults (world m) with
  | Some e :: _ => Some e
  | _ => None
  end.

Definition pop_fault (m : Mach) : Mach :=
  set_world (with_faults (tail (faults (world m))) (world m)) m.

(** A machine on which no primitive will raise. *)
Definition quiet (m : Mach) : Prop :=
  Forall (fun f => f = None) (faults (world m)).

(** An unguarded primitive: it raises when the world says so, otherwise its
    action [ev] happens. *)
Definition prim (ev : Event) : M unit :=
  fun m =>
    match next_fault m with
    | Some e => (Raise e, pop_fault m)
    | None => (Ok tt, record ev (pop_fault m))
    end.

Definition emit_status_changed (s : Status) : M unit := prim (StatusChanged s).
Definition emit_log_added (msg : string) : M unit := prim (LogAdded msg).
Definition emit_api_called (n : nat) : M unit := prim (ApiCalled n).
Definition time_sleep (ms : Z) : M unit := prim (Sleep ms).

(** ** Constants of the source *)

Definition net_dir : string := "/sys/class/net/".
Definition connectivity_url : string := "http://www.google.com".
Definition ip_url : string := "https://icanhazip.com".
Definition vpn_prefixes : list string := ["tun"; "wg"; "ppp"].

Definition operstate_path (iface : string) : string :=
  net_dir +:+ iface +:+ "/operstate".

(** ** Worker methods *)

(** [_track_api] (lines 33-35). *)
Definition _track_api : M unit :=
  w <- get_worker ;;
  set_api_count (api_count w + 1) ;;
  w' <- get_worker ;;
  emit_api_called (api_count w').

(** [urlopen(req, timeout=5)] on the IP-echo endpoint, inside the
    [try] of [_get_public_ip]: one request, answered by the world. *)
Definition urlopen_ip : M (string + string) :=
  fun m =>
    let w := world m in
    (Ok (default (inr "no response") (head (ip_echo w))),
     record (HttpGet ip_url 5000) (set_world (with_ip_echo (tail (ip_echo w)) w) m)).

(** [_get_public_ip] (lines 37-46). *)
Definition _get_public_ip : M (option string) :=
  emit_log_added "API CALL: Fetching Public IP (icanhazip.com)" ;;
  _track_api ;;
  r <- urlopen_ip ;;
  match r with
  | inl body => ret (Some (Text.strip body))
  | inr e =>
      emit_log_added ("API ERROR: IP fetch failed: " +:+ e) ;;
      ret None
  end.

(** [urlopen(req, timeout=3)] on the connectivity endpoint, inside the bare
    [try] of [_has_internet]: one attempt, [true] when it answers. *)
Definition urlopen_connectivity : M bool :=
  fun m =>
    let w := world m in
    (Ok (default false (head (reach w))),
     record (HttpGet connectivity_url 3000)
            (set_world (with_reach (tail (reach w)) w) m)).

(** The loop [for i in range(1, 4)] of [_has_internet] (lines 51-58), over
    the remaining values of [i]. *)
Fixpoint attempts (range : list nat) : M bool :=
  match range with
  | [] => ret false
  | i :: rest =>
      ok <- urlopen_connectivity ;;
      if ok then ret true
      else
        (if i <? 3 then time_sleep 1200 else ret tt) ;;
        attempts rest
  end.

(** [_has_internet] (lines 48-58). *)
Definition _has_internet : M bool :=
  emit_log_added "API CALL: Checking connectivity (google.com)" ;;
  _track_api ;;
  attempts (seq 1 3).

(** [_is_interface_active] (lines 60-64): reads the operstate file; any
    failure is swallowed by the bare [except]. *)
Definition _is_interface_active (iface : string) : M bool :=
  fun m =>
    (Ok match operstate (world m) iface with
        | Some txt => negb (String.eqb (Text.lower (Text.strip txt)) "down")
        | None => false
        end,
     record (ReadFile (operstate_path iface)) m).

(** [os.listdir] under its own [try]/[except] (lines 94-97). *)
Definition list_interfaces : M (list string) :=
  fun m => (Ok (default [] (net_listing (world m))), record (ListDir net_dir) m).

(** [i.startswith(('tun', 'wg', 'ppp'))]. *)
Definition is_vpn_candidate (i : string) : bool :=
  existsb (Text.startswith i) vpn_prefixes.

(** [any(self._is_interface_active(iface) for iface in vpn_ifaces)]: the
    generator is consumed up to the first true value. *)
Fixpoint any_active (ifaces : list string) : M bool :=
  match ifaces with
  | [] => ret false
  | iface :: rest =>
      up <- _is_interface_active iface ;;
      if up then ret true else any_active rest
  end.

(** Lines 94-100 of [perform_check]: the interface scan. *)
Definition scan : M bool :=
  interfaces <- list_interfaces ;;
  let vpn_ifaces := List.filter is_vpn_candidate interfaces in
  match vpn_ifaces with
  | [] => ret false
  | _ :: _ => any_active vpn_ifaces
  end.

(** Lines 103-108: status colour and label. *)
Definition classify (active_vpn is_online : bool) : Status * string :=
  if active_vpn && is_online then (green, "Protected")
  else if is_online then (blue, "Insecure")
  else (red, "Offline").

(** [source in ["Init", "Manual", "Toggle"]] (line 111). *)
Definition forced (source : Source) : bool :=
  bool_decide (source ∈ [Init; Manual; Toggle]).

Definition dropped_title : string := "⚠️ VPN DROPPED".
Definition dropped_message : string := "Traffic is now EXPOSED!".

(** [threading.Timer(0.2, lambda: notification_requested.emit(...)).start()]
    (lines 126-128). *)
Definition start_notification_timer : M unit :=
  prim (NotificationTimer 200 dropped_title dropped_message true).

(** Lines 89-91: the transient status at the start of a pass. *)
Definition mark_resolving : M unit :=
  w <- get_worker ;;
  if negb (is_resolving w) then
    emit_status_changed yellow ;;
    set_is_resolving true
  else ret tt.

(** Lines 94-101: the two probes. *)
Definition probe : M (bool * bool) :=
  active_vpn <- scan ;;
  is_online <- _has_internet ;;
  ret (active_vpn, is_online).

(** Lines 118-121. *)
Definition ip_suffix_for (current_status : Status) (source : Source)
    (is_online : bool) : M string :=
  if bool_decide (current_status = blue)
     || (bool_decide (source = Manual) && is_online)
  then
    ip <- _get_public_ip ;;
    match ip with
    | Some a => if Text.truthy a then ret (" (IP: " +:+ a +:+ ")") else ret ""
    | None => ret ""
    end
  else ret "".

(** Lines 103-128: classification, emission and notification. *)
Definition conclude (source : Source) (active_vpn is_online : bool) : M unit :=
  let '(current_status, label) := classify active_vpn is_online in
  w <- get_worker ;;
  let state_changed := negb (bool_decide (Some current_status = last_status w)) in
  let forced_check := forced source in
  (if state_changed || is_resolving w || forced_check then
     set_last_status (Some current_status) ;;
     set_is_resolving false ;;
     emit_status_changed current_status ;;
     ip_suffix <- ip_suffix_for current_status source is_online ;;
     emit_log_added
       ("STATUS: " +:+ label +:+ " [" +:+ source_str source +:+ "]" +:+ ip_suffix)
   else ret tt) ;;
  if bool_decide (current_status = blue) && (state_changed || forced_check)
  then start_notification_timer
  else ret tt.

(** The body of the outer [try] (lines 94-128). *)
Definition check_body (source : Source) : M unit :=
  r <- probe ;;
  conclude source r.1 r.2.

(** The handler of the outer [try] (lines 130-133). *)
Definition on_failure (e : string) : M unit :=
  emit_log_added ("CRITICAL ERROR: " +:+ e) ;;
  set_is_resolving false ;;
  emit_status_changed red.

(** [perform_check] (lines 86-133), as one thread runs it once it holds
    [_check_lock]. *)
Definition perform_check (source : Source) : M unit :=
  w <- get_worker ;;
  if negb (enabled w) then ret tt
  else
    mark_resolving ;;
    try_except (check_body source) on_failure.

(** Running a method from a machine state. *)
Definition run {A} (c : M A) (m : Mach) : Res A * Mach := c m.
Arguments run : simpl never.

(** ** The listener thread and its debounce timer ([_listen], lines 66-84) *)

Definition keywords : list string :=
  ["connected"; "vpn"; "connectivity"; "disconnected"; "removed"; "unavailable"].

(** Lines 74-75: the keyword test on the cleaned line. *)
Definition qualifies (line : string) : bool :=
  let line_clean := Text.lower (Text.strip line) in
  existsb (fun word => Text.contains word line_clean) keywords.

(** [trigger_check] (lines 67-68), the function [_listen] hands to every
    debounce timer. *)
Definition trigger_check : M unit := perform_check Auto.

(** A [threading.Timer(interval, function)] object: its two arguments, when
    [start()] was called and when [cancel()] was first called. Its function
    runs [interval] after the start unless the timer was cancelled before
    that instant. *)
Record Timer := mkTimer {
  interval : Z;
  callback : M unit;
  started_at : option Z;
  cancelled_at : option Z
}.

Definition timer_cancel (now : Z) (t : Timer) : Timer :=
  match cancelled_at t with
  | None => mkTimer (interval t) (callback t) (started_at t) (Some now)
  | Some _ => t
  end.

Definition timer_start (now : Z) (t : Timer) : Timer :=
  mkTimer (interval t) (callback t) (Some now) (cancelled_at t).

(** The instant at which the timer's function runs, if it ever does.
    [cancel()] stops a timer that is still waiting. A [cancel()] at the very
    instant of the deadline races with the timer thread, which has stopped
    waiting: [late] tells who wins, [true] when the cancel comes too late
    and the function runs. *)
Definition fires_at (late : bool) (t : Timer) : option Z :=
  match started_at t with
  | None => None
  | Some s =>
      let deadline := (s + interval t)%Z in
      match cancelled_at t with
      | None => Some deadline
      | Some c =>
          if (c <? deadline)%Z || (negb late && (c =? deadline)%Z) then None
          else Some deadline
      end
  end.

(** The listener thread: the shared worker it reads and writes, every timer
    object it has created, the one [_debounce_timer] refers to, and whether
    its loop is still running. *)
Record Listener := mkListener {
  mach : Mach;
  timers : list Timer;
  _debounce_timer : option nat;
  alive : bool
}.

(** Lines 77-80. *)
Definition note_change : M unit :=
  w <- get_worker ;;
  if negb (is_resolving w) then
    emit_status_changed yellow ;;
    set_is_resolving true ;;
    set_last_status None
  else ret tt.

(** The handler of [_listen] (lines 83-84); the loop is left. *)
Definition monitor_error (e : string) (L : Listener) (m : Mach) : Listener :=
  mkListener (run (emit_log_added ("DEBUG: Monitor Error: " +:+ e)) m).2
             (timers L) (_debounce_timer L) false.

(** One iteration of the loop (lines 73-82) for a line read at time [now].
    The iteration is taken to last no time: its [cancel()] and its
    [start()] both happen at [now]. *)
Definition on_line (now : Z) (line : string) (L : Listener) : Listener :=
  if negb (alive L) then L
  else if negb (enabled (worker (mach L))) then L
  else if qualifies line then
    (* line 76 *)
    let ts1 :=
      match _debounce_timer L with
      | Some k => alter (timer_cancel now) k (timers L)
      | None => timers L
      end in
    let L1 := mkListener (mach L) ts1 (_debounce_timer L) true in
    match run note_change (mach L) with
    | (Raise e, m1) => monitor_error e L1 m1
    | (Ok _, m1) =>
        (* line 81 *)
        let k := length ts1 in
        let L2 := mkListener m1 (ts1 ++ [mkTimer 2500 trigger_check None None])
                             (Some k) true in
        (* line 82 *)
        match run (prim (DebounceTimer 2500)) m1 with
        | (Raise e, m2) => monitor_error e L2 m2
        | (Ok _, m2) =>
            mkListener m2 (alter (timer_start now) k (timers L2)) (Some k) true
        end
    end
  else L.

(** The loop over the lines of the notification stream, each with the time
    (in milliseconds) at which it is read. *)
Definition listen (lines : list (Z * string)) (L : Listener) : Listener :=
  foldl (fun L tl => on_line tl.1 tl.2 L) L lines.

(** What the other threads may do to the shared worker between two lines:
    anything that leaves [enabled] as it is and introduces no failure. *)
Definition meanwhile (m m' : Mach) : Prop :=
  enabled (worker m') = enabled (worker m) /\ (quiet m -> quiet m').

Definition with_mach (m : Mach) (L : Listener) : Listener :=
  mkListener m (timers L) (_debounce_timer L) (alive L).

(** The listener reading [lines] while other threads run: [listens lines L L']
    when [L'] is a state the listener can be in after the last line. *)
Inductive listens : list (Z * string) -> Listener -> Listener -> Prop :=
| listens_done L :
    listens [] L L
| listens_line now line lines L L' :
    listens lines (on_line now line L) L' ->
    listens ((now, line) :: lines) L L'
| listens_others lines L m' L' :
    meanwhile (mach L) m' ->
    listens lines (with_mach m' L) L' ->
    listens lines L L'.

(** What a list of timers runs: for every timer that fires, the instant
    and the function it calls. *)
Definition firings (late : bool) (ts : list Timer) : list (Z * M unit) :=
  omap (fun t => (fun d => (d, callback t)) <$> fires_at late t) ts.

(** What the listener's timers trigger. *)
Definition triggered (late : bool) (L : Listener) : list (Z * M unit) :=
  firings late (timers L).

(** Arrival times in which each line follows the previous one by less
    than [gap] milliseconds. *)
Fixpoint close_together (gap : Z) (prev : Z) (times : list Z) : Prop :=
  match times with
  | [] => True
  | t :: rest => (prev <= t < prev + gap)%Z /\ close_together gap t rest
  end.

(** The arrival times of the lines that pass the keyword test. *)
Definition qualifying_times (lines : list (Z * string)) : list Z :=
  map fst (List.filter (fun tl => qualifies tl.2) lines).

(** A started timer is pending, that is a [cancel()] still stops it, until
    it is cancelled or reaches its deadline. *)
Definition pending (late : bool) (now : Z) (t : Timer) : bool :=
  match started_at t, cancelled_at t with
  | Some s, None =>
      let deadline := (s + interval t)%Z in
      (now <? deadline)%Z || (negb late && (now =? deadline)%Z)
  | _, _ => false
  end.

(** Whether the timer [_debounce_timer] refers to is pending. *)
Definition debounce_pending (late : bool) (now : Z) (L : Listener) : bool :=
  match _debounce_timer L with
  | Some k => from_option (pending late now) false (timers L !! k)
  | None => false
  end.

(** A listener between two bursts, at time [now]: its loop is running,
    monitoring is enabled, nothing raises, and no debounce timer is
    pending (none was created yet, or the last one has fired or was
    cancelled). *)
Definition idle (late : bool) (now : Z) (L : Listener) : Prop :=
  alive L = true /\ enabled (worker (mach L)) = true /\ quiet (mach L) /\
  debounce_pending late now L = false.

(** A listener whose [_debounce_timer] was started at [t] and is pending,
    the earlier timers running what [before] lists. *)
Definition armed (late : bool) (L : Listener) (t : Z)
    (before : list (Z * M unit)) : Prop :=
  exists old,
    timers L = old ++ [mkTimer 2500 trigger_check (Some t) None] /\
    firings late old = before /\
    _debounce_timer L = Some (length old) /\
    alive L = true /\
    enabled (worker (mach L)) = true /\ quiet (mach L).

(** ** Threads running [perform_check] under [_check_lock] *)

(** Where a thread stands in [perform_check]. *)
Inductive Pc :=
| AtEntry                                   (* line 87 *)
| AtLock                                    (* line 88, before acquiring *)
| AtMark                                    (* lines 89-91 *)
| AtProbe                                   (* lines 94-101 *)
| AtConclude (active_vpn is_online : bool)    (* lines 103-128 *)
| AtHandler (e : string)                    (* lines 130-133 *)
| AtUnlock (r : Res unit)                   (* leaving the [with] block *)
| Finished (r : Res unit).

Record Thread := mkThread {
  source : Source;
  pc : Pc
}.

(** The steps a pass takes while it holds the lock. *)
Inductive Stage := Acquire | Mark | Probe | Conclude | Handle | Release.

#[global] Instance Stage_eq_dec : EqDecision Stage.
Proof. solve_decision. Defined.

(** The worker shared by all threads, [_check_lock] with the thread that
    acquired it, the threads, and the log of critical-section steps. *)
Record Sys := mkSys {
  shared : Mach;
  lock : option nat;
  threads : list Thread;
  history : list (nat * Stage)
}.

(** The critical section: from after [acquire] to before [release]. *)
Definition in_cs (p : Pc) : bool :=
  match p with
  | AtMark | AtProbe | AtConclude _ _ | AtHandler _ | AtUnlock _ => true
  | AtEntry | AtLock | Finished _ => false
  end.

(** What a thread does next, on the shared worker. *)
Definition thread_step (src : Source) (p : Pc) (m : Mach) : Pc * Mach :=
  match p with
  | AtEntry => if enabled (worker m) then (AtLock, m) else (Finished (Ok tt), m)
  | AtLock => (AtMark, m)
  | AtMark =>
      match run mark_resolving m with
      | (Ok _, m') => (AtProbe, m')
      | (Raise e, m') => (AtUnlock (Raise e), m')
      end
  | AtProbe =>
      match run probe m with
      | (Ok r, m') => (AtConclude r.1 r.2, m')
      | (Raise e, m') => (AtHandler e, m')
      end
  | AtConclude v o =>
      match run (conclude src v o) m with
      | (Ok _, m') => (AtUnlock (Ok tt), m')
      | (Raise e, m') => (AtHandler e, m')
      end
  | AtHandler e =>
      let '(r, m') := run (on_failure e) m in (AtUnlock r, m')
  | AtUnlock r => (Finished r, m)
  | Finished r => (Finished r, m)
  end.

Definition lock_after (i : nat) (p : Pc) (l : option nat) : option nat :=
  match p with
  | AtLock => Some i
  | AtUnlock _ => None
  | _ => l
  end.

Definition stage_of (p : Pc) : option Stage :=
  match p with
  | AtLock => Some Acquire
  | AtMark => Some Mark
  | AtProbe => Some Probe
  | AtConclude _ _ => Some Conclude
  | AtHandler _ => Some Handle
  | AtUnlock _ => Some Release
  | AtEntry | Finished _ => None
  end.

Definition logged (i : nat) (p : Pc) : list (nat * Stage) :=
  match stage_of p with
  | Some st => [(i, st)]
  | None => []
  end.

Definition is_finished (p : Pc) : bool :=
  match p with Finished _ => true | _ => false end.

(** What the user and the listener thread do to the worker without taking
    the lock: the toggle writes [enabled] (line 251), the listener runs
    lines 77-80, and the world changes. *)
Inductive outside : Mach -> Mach -> Prop :=
| outside_toggle m :
    outside m (mkMach (mkWorker (negb (enabled (worker m)))
                                (last_status (worker m))
                                (is_resolving (worker m))
                                (api_count (worker m)))
                      (world m) (trace m))
| outside_listener m :
    outside m (run note_change m).2
| outside_world m w :
    outside m (set_world w m).

(** One step of the system. *)
Inductive step : Sys -> Sys -> Prop :=
| step_thread s i t p' m' :
    threads s !! i = Some t ->
    is_finished (pc t) = false ->
    (pc t = AtLock -> lock s = None) ->
    thread_step (source t) (pc t) (shared s) = (p', m') ->
    step s (mkSys m'
                  (lock_after i (pc t) (lock s))
                  (<[i := mkThread (source t) p']> (threads s))
                  (history s ++ logged i (pc t)))
| step_spawn s src :
    step s (mkSys (shared s) (lock s)
                  (threads s ++ [mkThread src AtEntry]) (history s))
| step_outside s m' :
    outside (shared s) m' ->
    step s (mkSys m' (lock s) (threads s) (history s)).

Definition initial (s : Sys) : Prop :=
  lock s = None /\ history s = [] /\
  Forall (fun t => pc t = AtEntry) (threads s).

Definition reachable (s : Sys) : Prop :=
  exists s0, initial s0 /\ rtc step s0 s.

(** Replaying a log of critical-section steps from a lock state: the lock
    state at the end, or [None] when a step is taken by a thread that does
    not hold the lock, or the lock is acquired while held. *)
Fixpoint replay (holder : option nat) (h : list (nat * Stage))
  : option (option nat) :=
  match h with
  | [] => Some holder
  | (i, Acquire) :: h' =>
      match holder with
      | None => replay (Some i) h'
      | Some _ => None
      end
  | (i, Release) :: h' =>
      if bool_decide (holder = Some i) then replay None h' else None
  | (i, _) :: h' =>
      if bool_decide (holder = Some i) then replay holder h' else None
  end.

(** A log in which passes follow one another without interleaving. *)
Definition serial (h : list (nat * Stage)) : Prop :=
  is_Some (replay None h).

(** One thread running alone, [n] steps. *)
Fixpoint run_alone (n : nat) (src : Source) (p : Pc) (m : Mach) : Pc * Mach :=
  match n with
  | O => (p, m)
  | S n' => let '(p', m') := thread_step src p m in run_alone n' src p' m'
  end.

(** ** Observations on machines and traces *)

(** The events a run from [m] to [m'] added to the trace. *)
Definition emitted (m m' : Mach) : list Event :=
  drop (length (trace m)) (trace m').

(** One attempt on the connectivity endpoint, and one IP-echo request. *)
Definition connectivity_attempt : Event := HttpGet connectivity_url 3000.
Definition ip_request : Event := HttpGet ip_url 5000.

Definition is_file_event (ev : Event) : bool :=
  match ev with
  | ListDir _ | ReadFile _ => true
  | _ => false
  end.

Definition is_log (ev : Event) : bool :=
  match ev with
  | LogAdded _ => true
  | _ => false
  end.

Definition is_notification (ev : Event) : bool :=
  match ev with
  | NotificationTimer _ _ _ _ => true
  | _ => false
  end.

Definition is_request (ev : Event) : bool :=
  match ev with
  | HttpGet _ _ => true
  | _ => false
  end.

(** The HTTP requests among some events. *)
Definition requests (evs : list Event) : list Event :=
  List.filter is_request evs.

(** The number of attempts on the connectivity endpoint among some events. *)
Definition attempts_made (evs : list Event) : nat :=
  length (List.filter (fun ev => bool_decide (ev = connectivity_attempt)) evs).

(** The interface names the scan sees: the listing, or nothing when the
    listing fails. *)
Definition listing (w : World) : list string := default [] (net_listing w).

(** The [k]-th outcome the connectivity endpoint will give (failure once
    the stream is exhausted). *)
Definition reach_nth (w : World) (k : nat) : bool := nth k (reach w) false.

(** The worker after one probe has been counted. *)
Definition counted (w : VPNWorker) : VPNWorker :=
  mkWorker (enabled w) (last_status w) (is_resolving w) (api_count w + 1).

(** Parts of the world the two probes of a pass read. *)
Definition same_probe_env (m m' : Mach) : Prop :=
  net_listing (world m') = net_listing (world m) /\
  operstate (world m') = operstate (world m) /\
  reach (world m') = reach (world m).

(** What holds of the lock in every reachable state: a thread inside the
    critical section is the one recorded in the lock, the lock is held only
    by a thread inside the critical section, and the log replays to the
    current lock state. *)
Definition lock_inv (s : Sys) : Prop :=
  (forall i t, threads s !! i = Some t -> in_cs (pc t) = true -> lock s = Some i) /\
  (forall i, lock s = Some i ->
             exists t, threads s !! i = Some t /\ in_cs (pc t) = true) /\
  replay None (history s) = Some (lock s).

(** ** Sample hosts *)

(** A host with a WireGuard interface that is up and a network that
    answers. *)
Definition host_wg0_online : World :=
  mkWorld (Some ["lo"; "eth0"; "wg0"])
          (fun i => if String.eqb i "wg0" then Some "up" else Some "down")
          [true] [inl "203.0.113.7"] [].

(** A host whose only tunnel device reports the operational state
    [unknown]. *)
Definition host_tun0_unknown : World :=
  mkWorld (Some ["lo"; "tun0"])
          (fun i => if String.eqb i "tun0" then Some "unknown" else None)
          [false; false; true] [] [].

(** A host on which the emission of the classification raises. *)
Definition host_emit_raises : World :=
  mkWorld (Some ["lo"; "eth0"]) (fun _ => Some "up") [true] []
          [None; None; None; Some "wrapped C/C++ object has been deleted"].

Definition fresh_worker : VPNWorker := mkWorker true None false 0.

(** A host on which every emission after the first raises, as when the
    receiving Qt object is deleted while a pass runs. *)
Definition host_signals_fail : World :=
  mkWorld (Some ["lo"; "eth0"]) (fun _ => Some "up") [true] []
          [None; Some "wrapped C/C++ object has been deleted";
           Some "wrapped C/C++ object has been deleted"].

(** A host without tunnel device, online, on which the IP-echo request
    times out. *)
Definition host_no_vpn : World :=
  mkWorld (Some ["lo"; "eth0"]) (fun _ => Some "up") [false; true]
          [inr "<urlopen error timed out>"] [].

(** Two triggers at start-up; the first has taken the lock, the second
    has not yet read [enabled]. *)
Definition two_triggers_start : Sys :=
  mkSys (mkMach fresh_worker host_wg0_online []) None
        [mkThread Init AtEntry; mkThread Manual AtEntry] [].

Definition two_triggers_locked : Sys :=
  mkSys (mkMach fresh_worker host_wg0_online []) (Some 0)
        [mkThread Init AtMark; mkThread Manual AtEntry] [(0, Acquire)].

(** ** The tray application ([VPNMonitorApp]) *)

(** Keys of the [icons] dictionary (lines 214-216): one per status colour,
    plus the dimmed yellow of the pulse animation. *)
Inductive IconKey := IconOf (s : Status) | yellow_alt.

#[global] Instance IconKey_eq_dec : EqDecision IconKey.
Proof. solve_decision. Defined.

(** [QSystemTrayIcon.MessageIcon] values the program uses. *)
Inductive MessageIcon := Critical | Information.

(** One call of [tray.showMessage(title, message, icon, msecs)]. *)
Record TrayMessage := mkTrayMessage {
  tm_title : string;
  tm_message : string;
  tm_icon : MessageIcon;
  tm_msecs : Z
}.

(** The widgets [VPNMonitorApp] updates after construction. *)
Record VPNMonitorApp := mkApp {
  pulse_active : bool;           (* pulse_timer.isActive() *)
  pulse_state : bool;
  tray_icon : option IconKey;    (* last icon given to tray.setIcon *)
  api_label : string;
  text_area : list string;
  toggle_act : string;
  shown : list TrayMessage
}.

(** The application once [__init__] has run: [_setup_log_window] writes the
    counter label, [_setup_tray] calls [update_icon('yellow')] and names the
    toggle action. *)
Definition app_init : VPNMonitorApp :=
  mkApp true false None "Total API Calls: 0" [] "Disable Monitoring" [].

(** [_toggle_pulse] (lines 233-236). *)
Definition _toggle_pulse (a : VPNMonitorApp) : VPNMonitorApp :=
  let ps := negb (pulse_state a) in
  mkApp (pulse_active a) ps
        (Some (if ps then yellow_alt else IconOf yellow))
        (api_label a) (text_area a) (toggle_act a) (shown a).

(** The pulse timer's time-out: it only fires while the timer is active. *)
Definition pulse_tick (a : VPNMonitorApp) : VPNMonitorApp :=
  if pulse_active a then _toggle_pulse a else a.

(** [update_icon] (lines 238-244). *)
Definition update_icon (status : Status) (a : VPNMonitorApp) : VPNMonitorApp :=
  if bool_decide (status = yellow) then
    if negb (pulse_active a) then
      mkApp true (pulse_state a) (tray_icon a) (api_label a) (text_area a)
            (toggle_act a) (shown a)
    else a
  else
    mkApp false (pulse_state a) (Some (IconOf status)) (api_label a)
          (text_area a) (toggle_act a) (shown a).

(** [show_tray_message] (lines 246-248). *)
Definition show_tray_message (title message : string) (critical : bool)
    (a : VPNMonitorApp) : VPNMonitorApp :=
  let icon := if critical then Critical else Information in
  mkApp (pulse_active a) (pulse_state a) (tray_icon a) (api_label a)
        (text_area a) (toggle_act a)
        (shown a ++ [mkTrayMessage title message icon
                                   (if critical then 0 else 3000)]).

(** [api_called] is declared [pyqtSignal(int)] (line 15): the count
    reaches the slot as a 32-bit C [int], that is wrapped into
    [-2^31, 2^31). *)
Definition to_c_int (n : nat) : Z :=
  ((Z.of_nat n + 2 ^ 31) mod 2 ^ 32 - 2 ^ 31)%Z.

(** [update_api_counter] (line 275). *)
Definition update_api_counter (count : Z) (a : VPNMonitorApp) : VPNMonitorApp :=
  mkApp (pulse_active a) (pulse_state a) (tray_icon a)
        ("Total API Calls: " +:+ pretty count)
        (text_area a) (toggle_act a) (shown a).

(** [add_to_log_window] (line 276); [stamp] is what
    [time.strftime('%H:%M:%S')] returns at the call. *)
Definition add_to_log_window (stamp msg : string) (a : VPNMonitorApp)
  : VPNMonitorApp :=
  mkApp (pulse_active a) (pulse_state a) (tray_icon a) (api_label a)
        (text_area a ++ ["[" +:+ stamp +:+ "] " +:+ msg])
        (toggle_act a) (shown a).

Definition set_toggle_text (txt : string) (a : VPNMonitorApp) : VPNMonitorApp :=
  mkApp (pulse_active a) (pulse_state a) (tray_icon a) (api_label a)
        (text_area a) txt (shown a).

(** The slot each signal is connected to (lines 153-156). The request of
    the delayed notification reaches [show_tray_message] when its 0.2 s
    timer fires; the other events of a trace are not signals. *)
Definition deliver (stamp : string) (ev : Event) (a : VPNMonitorApp)
  : VPNMonitorApp :=
  match ev with
  | StatusChanged s => update_icon s a
  | LogAdded msg => add_to_log_window stamp msg a
  | ApiCalled n => update_api_counter (to_c_int n) a
  | NotificationTimer _ title message critical =>
      show_tray_message title message critical a
  | _ => a
  end.

(** What the GUI thread processes: a signal delivered at some clock time,
    or a time-out of the pulse timer. *)
Inductive GuiEvent := Deliver (stamp : string) (ev : Event) | Tick.

Definition gui_step (a : VPNMonitorApp) (g : GuiEvent) : VPNMonitorApp :=
  match g with
  | Deliver stamp ev => deliver stamp ev a
  | Tick => pulse_tick a
  end.

Definition gui_run (gs : list GuiEvent) (a : VPNMonitorApp) : VPNMonitorApp :=
  foldl gui_step a gs.

(** The signals among the events the GUI thread processed, in order. *)
Definition delivered (gs : list GuiEvent) : list Event :=
  omap (fun g => match g with Deliver _ ev => Some ev | Tick => None end) gs.

Definition is_status (ev : Event) : bool :=
  match ev with
  | StatusChanged _ => true
  | _ => false
  end.

(** The tray messages some events ask for, as [show_tray_message] shows
    them. *)
Definition messages_of (evs : list Event) : list TrayMessage :=
  omap (fun ev =>
          match ev with
          | NotificationTimer _ title message critical =>
              Some (mkTrayMessage title message
                                  (if critical then Critical else Information)
                                  (if critical then 0 else 3000))
          | _ => None
          end) evs.

Definition is_api_called (ev : Event) : bool :=
  match ev with
  | ApiCalled _ => true
  | _ => false
  end.

(** The counts some events announce through [api_called]. *)
Definition counts_of (evs : list Event) : list nat :=
  omap (fun ev => match ev with ApiCalled n => Some n | _ => None end) evs.

(** The application together with the worker and its threads. *)
Record Desk := mkDesk {
  app : VPNMonitorApp;
  sys : Sys
}.

Definition set_enabled (b : bool) (m : Mach) : Mach :=
  mkMach (mkWorker b (last_status (worker m)) (is_resolving (worker m))
                   (api_count (worker m)))
         (world m) (trace m).

(** [toggle_monitoring] (lines 250-259). *)
Definition toggle_monitoring (stamp : string) (d : Desk) : Desk :=
  let s := sys d in
  let en := negb (enabled (worker (shared s))) in
  let m' := set_enabled en (shared s) in
  if en then
    mkDesk (add_to_log_window stamp "SYSTEM: Monitoring re-enabled."
              (set_toggle_text "Disable Monitoring" (app d)))
           (mkSys m' (lock s) (threads s ++ [mkThread Toggle AtEntry])
                  (history s))
  else
    mkDesk (update_icon grey
              (add_to_log_window stamp "SYSTEM: Monitoring disabled."
                 (set_toggle_text "Enable Monitoring" (app d))))
           (mkSys m' (lock s) (threads s) (history s)).

(** ** The autostart entry ([toggle_startup], lines 261-273) *)

(** [os.path.dirname] on a POSIX path: the path up to its last slash, with
    the trailing slashes removed unless it consists of slashes only. *)
Definition is_slash (c : ascii) : bool := Ascii.eqb c "/".

Fixpoint has_slash (p : string) : bool :=
  match p with
  | EmptyString => false
  | String c p' => is_slash c || has_slash p'
  end.

(** [p[:p.rfind('/') + 1]]. *)
Fixpoint upto_last_slash (p : string) : string :=
  match p with
  | EmptyString => EmptyString
  | String c p' =>
      if has_slash p then String c (upto_last_slash p') else EmptyString
  end.

Fixpoint all_slashes (p : string) : bool :=
  match p with
  | EmptyString => true
  | String c p' => is_slash c && all_slashes p'
  end.

Fixpoint rstrip_slashes (p : string) : string :=
  match p with
  | EmptyString => EmptyString
  | String c p' =>
      let r := rstrip_slashes p' in
      if is_slash c && String.eqb r "" then EmptyString else String c r
  end.

Definition dirname (p : string) : string :=
  let head := upto_last_slash p in
  if Text.truthy head && negb (all_slashes head) then rstrip_slashes head
  else head.

(** What the program is started with: [autostart_path] as [__init__]
    computed it (line 142), and what [os.path.abspath(sys.argv[0])]
    answers. *)
Record Install := mkInstall {
  autostart_path : string;
  exe_path : string
}.

(** The calls [toggle_startup] makes to the operating system. *)
Inductive OsCall :=
| MakeDirs (path : string) (exist_ok : bool)
| OpenFile (path mode : string)
| AbsPath
| FileWrite (path text : string)
| FileClose (path : string)
| PathExists (path : string)
| Remove (path : string).

#[global] Instance OsCall_eq_dec : EqDecision OsCall.
Proof. solve_decision. Defined.

(** The operating system as [toggle_startup] meets it: for the coming
    calls that can raise, whether each returns ([None]) or raises
    ([Some e], [e] the text of the exception); what [os.path.exists]
    answers, which is true of a directory as well as of a file; and the
    calls made so far. Nothing is assumed of the file system beyond these
    answers. *)
Record Os := mkOs {
  raises : list (option string);
  exists_answer : string -> bool;
  os_calls : list OsCall
}.

(** A call that can raise. *)
Definition os_call (c : OsCall) (o : Os) : Res unit * Os :=
  let o' := mkOs (tail (raises o)) (exists_answer o) (os_calls o ++ [c]) in
  match head (raises o) with
  | Some (Some e) => (Raise e, o')
  | _ => (Ok tt, o')
  end.

(** Whether the next [n] calls that can raise all return. *)
Definition no_error (n : nat) (o : Os) : bool :=
  forallb (fun f => bool_decide (f = None)) (take n (raises o)).

(** [os.path.exists], which answers and never raises. *)
Definition os_path_exists (p : string) (o : Os) : bool * Os :=
  (exists_answer o p,
   mkOs (raises o) (exists_answer o) (os_calls o ++ [PathExists p])).

(** The text written on line 266. *)
Definition desktop_entry (exe : string) : string :=
  "[Desktop Entry]
Type=Application
Name=VPN Monitor
Exec=" +:+ exe +:+ "
Hidden=false
NoDisplay=false
X-GNOME-Autostart-enabled=true
".

(** Lines 265-266: the [with] block. Its body evaluates the text, then
    writes it; leaving the block closes the file whether or not the body
    raised, and an exception of the close replaces that of the body. *)
Definition write_entry (i : Install) (o : Os) : Res unit * Os :=
  let p := autostart_path i in
  match os_call (OpenFile p "w") o with
  | (Raise e, o1) => (Raise e, o1)
  | (Ok _, o1) =>
      let body :=
        match os_call AbsPath o1 with
        | (Raise e, o2) => (Raise e, o2)
        | (Ok _, o2) => os_call (FileWrite p (desktop_entry (exe_path i))) o2
        end in
      match os_call (FileClose p) body.2 with
      | (Raise e, o3) => (Raise e, o3)
      | (Ok _, o3) => (body.1, o3)
      end
  end.

(** Lines 264-266. *)
Definition create_entry (i : Install) (o : Os) : Res unit * Os :=
  match os_call (MakeDirs (dirname (autostart_path i)) true) o with
  | (Raise e, o1) => (Raise e, o1)
  | (Ok _, o1) => write_entry i o1
  end.

(** [toggle_startup], given the state of the check box it reads on line
    262. The result is [Raise e] when an exception leaves the method. *)
Definition toggle_startup (checked : bool) (i : Install) (stamp : string)
    (st : VPNMonitorApp * Os) : Res unit * (VPNMonitorApp * Os) :=
  let '(a, o) := st in
  if checked then
    match create_entry i o with
    | (Ok _, o') =>
        (Ok tt, (add_to_log_window stamp "SYSTEM: Autostart enabled." a, o'))
    | (Raise e, o') =>
        (Ok tt, (add_to_log_window stamp
                   ("ERROR: Could not create autostart: " +:+ e) a, o'))
    end
  else
    let '(found, o1) := os_path_exists (autostart_path i) o in
    if found then
      match os_call (Remove (autostart_path i)) o1 with
      | (Raise e, o2) => (Raise e, (a, o2))
      | (Ok _, o2) =>
          (Ok tt, (add_to_log_window stamp "SYSTEM: Autostart disabled." a, o2))
      end
    else (Ok tt, (a, o1)).

(** The calls made between two states of the operating system. *)
Definition calls_made (o o' : Os) : list OsCall :=
  drop (length (os_calls o)) (os_calls o').

(** The calls of lines 264-266 when nothing fails. *)
Definition entry_calls (i : Install) : list OsCall :=
  [MakeDirs (dirname (autostart_path i)) true;
   OpenFile (autostart_path i) "w";
   AbsPath;
   FileWrite (autostart_path i) (desktop_entry (exe_path i));
   FileClose (autostart_path i)].

(** The installation of a user [u]. *)
Definition install_u : Install :=
  mkInstall "/home/u/.config/autostart/vpn-monitor.desktop" "/opt/vpn/main.py".

(** ** More observations *)

(** The operational state the scan computes for an interface. *)
Definition is_up (w : World) (iface : string) : bool :=
  match operstate w iface with
  | Some txt => negb (String.eqb (Text.lower (Text.strip txt)) "down")
  | None => false
  end.

(** The interface names the scan keeps (line 99). *)
Definition vpn_ifaces (w : World) : list string :=
  List.filter is_vpn_candidate (listing w).

(** What the IP-echo endpoint answers to the next request. *)
Definition ip_outcome (w : World) : string + string :=
  default (inr "no response") (head (ip_echo w)).

(** The interfaces whose operstate file the scan opens, in order: the
    generator given to [any] stops at the first one that is up. *)
Fixpoint read_order (w : World) (ifaces : list string) : list string :=
  match ifaces with
  | [] => []
  | i :: rest => i :: (if is_up w i then [] else read_order w rest)
  end.

(** How many steps separate a position inside the critical section from
    the release of the lock, at most. *)
Definition steps_to_release (p : Pc) : nat :=
  match p with
  | AtMark => 5
  | AtProbe => 4
  | AtConclude _ _ => 3
  | AtHandler _ => 2
  | AtUnlock _ => 1
  | AtEntry | AtLock | Finished _ => 0
  end.

(** A method that, however it ends, leaves [enabled] alone, does not
    lower the probe counter and only appends to the trace. *)
Definition steady {A} (c : M A) : Prop :=
  forall m,
    enabled (worker (run c m).2) = enabled (worker m) /\
    api_count (worker m) <= api_count (worker (run c m).2) /\
    trace m `prefix_of` trace (run c m).2.

(** The thread [i] of a system can take a step. *)
Definition can_step (s : Sys) (i : nat) : Prop :=
  exists t,
    threads s !! i = Some t /\ is_finished (pc t) = false /\
    (pc t = AtLock -> lock s = None).

(** The system after thread [i] has taken its next step. *)
Definition after_step (s : Sys) (i : nat) : Sys :=
  match threads s !! i with
  | Some t =>
      let '(p', m') := thread_step (source t) (pc t) (shared s) in
      mkSys m' (lock_after i (pc t) (lock s))
            (<[i := mkThread (source t) p']> (threads s))
            (history s ++ logged i (pc t))
  | None => s
  end.

(** ** Evaluation lemmas for the monad *)

Lemma run_ret {A} (a : A) m : run (ret a) m = (Ok a, m).
Proof. reflexivity. Qed.

Lemma run_bind {A B} (c : M A) (k : A -> M B) m :
  run (bind c k) m =
  match run c m with
  | (Ok a, m') => run (k a) m'
  | (Raise e, m') => (Raise e, m')
  end.
Proof. reflexivity. Qed.

Lemma run_try_except {A} (c : M A) h m :
  run (try_except c h) m =
  match run c m with
  | (Ok a, m') => (Ok a, m')
  | (Raise e, m') => run (h e) m'
  end.
Proof. reflexivity. Qed.

Lemma run_get_worker m : run get_worker m = (Ok (worker m), m).
Proof. reflexivity. Qed.

Lemma run_set_worker f m :
  run (set_worker f) m = (Ok tt, mkMach (f (worker m)) (world m) (trace m)).
Proof. reflexivity. Qed.

(** A primitive that meets no fault performs its action. *)
Lemma run_prim_ok ev m :
  next_fault m = None -> run (prim ev) m = (Ok tt, record ev (pop_fault m)).
Proof. unfold run, prim. intros ->. reflexivity. Qed.

Lemma quiet_next_fault m : quiet m -> next_fault m = None.
Proof.
  unfold quiet, next_fault. destruct (faults (world m)) as [|[e|] fs]; try done.
  intros H. inversion H; subst. discriminate.
Qed.

Lemma Forall_on_tail {A} (P : A -> Prop) (l : list A) :
  Forall P l -> Forall P (tail l).
Proof. destruct l; simpl; [done|]. intros H. by inversion H. Qed.

(** Discharges [quiet m'] when the fault stream of [m'] is what is left of
    the stream of a machine known to be quiet. *)
Ltac solve_quiet :=
  unfold quiet in *; simpl in *; repeat apply Forall_on_tail; assumption.

Lemma run_prim_quiet ev m :
  quiet m -> run (prim ev) m = (Ok tt, record ev (pop_fault m)).
Proof. intros. apply run_prim_ok. by apply quiet_next_fault. Qed.

(** Symbolic execution of a method on a machine that raises nothing. *)
Ltac exec_step :=
  first
    [ rewrite run_ret
    | rewrite run_get_worker
    | rewrite run_set_worker
    | rewrite run_prim_quiet by solve_quiet
    | rewrite run_bind
    | rewrite run_try_except ].

Ltac exec := repeat (exec_step; cbn beta iota).

(** ** The worker's methods on a machine that raises nothing *)

Lemma emitted_app m m' evs : trace m' = trace m ++ evs -> emitted m m' = evs.
Proof. unfold emitted. intros ->. apply drop_app_length. Qed.

Lemma track_api_quiet m :
  quiet m ->
  exists m',
    run _track_api m = (Ok tt, m') /\ quiet m' /\
    worker m' = counted (worker m) /\
    trace m' = trace m ++ [ApiCalled (api_count (worker m) + 1)] /\
    same_probe_env m m' /\ ip_echo (world m') = ip_echo (world m).
Proof.
  intros Hq. unfold _track_api, set_api_count, emit_api_called. exec.
  eexists. split; [reflexivity|]. split; [solve_quiet|].
  simpl. repeat split.
Qed.

Lemma urlopen_connectivity_run m :
  run urlopen_connectivity m =
  (Ok (reach_nth (world m) 0),
   record connectivity_attempt
          (set_world (with_reach (tail (reach (world m))) (world m)) m)).
Proof.
  unfold run, urlopen_connectivity, reach_nth.
  destruct (reach (world m)); reflexivity.
Qed.

(** The retry loop, by the outcomes of the three attempts. *)
Lemma attempts_quiet m :
  quiet m ->
  let r := reach_nth (world m) in
  exists m',
    run (attempts (seq 1 3)) m = (Ok (r 0 || r 1 || r 2), m') /\ quiet m' /\
    worker m' = worker m /\
    trace m' = trace m ++
      (if r 0 then [connectivity_attempt]
       else if r 1 then [connectivity_attempt; Sleep 1200; connectivity_attempt]
       else [connectivity_attempt; Sleep 1200; connectivity_attempt;
             Sleep 1200; connectivity_attempt]) /\
    net_listing (world m') = net_listing (world m) /\
    operstate (world m') = operstate (world m) /\
    ip_echo (world m') = ip_echo (world m).
Proof.
  intros Hq r. subst r. unfold reach_nth.
  destruct m as [w [nl os rs ips fs] tr].
  unfold attempts, seq, time_sleep.
  destruct rs as [|[|] [|[|] [|[|] rs]]];
    repeat (first [ rewrite run_bind | rewrite urlopen_connectivity_run
                  | rewrite run_ret | rewrite run_prim_quiet by solve_quiet ];
            simpl);
    (eexists; split; [reflexivity|]); (split; [solve_quiet|]);
    simpl; rewrite <- ?app_assoc; simpl;
    repeat split.
Qed.

Lemma has_internet_quiet m :
  quiet m ->
  let r := reach_nth (world m) in
  exists m',
    run _has_internet m = (Ok (r 0 || r 1 || r 2), m') /\ quiet m' /\
    worker m' = counted (worker m) /\
    trace m' = trace m ++
      [LogAdded "API CALL: Checking connectivity (google.com)";
       ApiCalled (api_count (worker m) + 1)] ++
      (if r 0 then [connectivity_attempt]
       else if r 1 then [connectivity_attempt; Sleep 1200; connectivity_attempt]
       else [connectivity_attempt; Sleep 1200; connectivity_attempt;
             Sleep 1200; connectivity_attempt]) /\
    ip_echo (world m') = ip_echo (world m).
Proof.
  intros Hq r. unfold _has_internet, emit_log_added.
  rewrite run_bind, run_prim_quiet by done.
  assert (Hq1 : quiet (record (LogAdded "API CALL: Checking connectivity (google.com)")
                              (pop_fault m))) by solve_quiet.
  destruct (track_api_quiet _ Hq1) as (m2 & E2 & Hq2 & W2 & T2 & (_ & _ & R2) & I2).
  rewrite run_bind, E2.
  destruct (attempts_quiet _ Hq2) as (m3 & E3 & Hq3 & W3 & T3 & _ & _ & I3).
  unfold reach_nth in E3, T3. rewrite R2 in E3, T3. simpl in E3, T3.
  exists m3. split; [exact E3|]. split; [exact Hq3|].
  split; [by rewrite W3, W2|].
  split; [|by rewrite I3, I2].
  rewrite T3, T2. simpl. rewrite <- !app_assoc. reflexivity.
Qed.

(** The scan touches neither the worker nor the world; it only reads. *)
Lemma any_active_run ifaces m :
  exists evs,
    run (any_active ifaces) m =
      (Ok (existsb (fun i =>
                      match operstate (world m) i with
                      | Some txt =>
                          negb (String.eqb (Text.lower (Text.strip txt)) "down")
                      | None => false
                      end) ifaces),
       mkMach (worker m) (world m) (trace m ++ evs)) /\
    Forall (fun ev => is_file_event ev = true) evs.
Proof.
  revert m. induction ifaces as [|i rest IH]; intros m.
  - exists []. simpl. rewrite run_ret, app_nil_r. by destruct m.
  - simpl. rewrite run_bind. unfold _is_interface_active at 1. unfold run at 1.
    set (up := match operstate (world m) i with Some _ => _ | None => _ end).
    destruct up.
    + exists [ReadFile (operstate_path i)]. rewrite run_ret. simpl.
      split; [reflexivity|]. by constructor.
    + destruct (IH (record (ReadFile (operstate_path i)) m)) as (evs & E & F).
      exists (ReadFile (operstate_path i) :: evs). rewrite E. simpl.
      rewrite <- app_assoc. split; [reflexivity|]. by constructor.
Qed.

Lemma scan_run m :
  exists evs,
    run scan m =
      (Ok (existsb (fun i =>
                      match operstate (world m) i with
                      | Some txt =>
                          negb (String.eqb (Text.lower (Text.strip txt)) "down")
                      | None => false
                      end)
                   (List.filter is_vpn_candidate (listing (world m)))),
       mkMach (worker m) (world m) (trace m ++ ListDir net_dir :: evs)) /\
    Forall (fun ev => is_file_event ev = true) evs /\
    (List.filter is_vpn_candidate (listing (world m)) = [] -> evs = []).
Proof.
  unfold scan. rewrite run_bind. unfold list_interfaces at 1. unfold run at 1.
  fold (listing (world m)).
  destruct (List.filter is_vpn_candidate (listing (world m))) as [|i rest] eqn:Ef.
  - exists []. rewrite run_ret. simpl. repeat split; auto.
  - destruct (any_active_run (i :: rest) (record (ListDir net_dir) m))
      as (evs & E & F).
    exists evs. rewrite E. simpl. rewrite <- app_assoc. simpl.
    repeat split; auto. discriminate.
Qed.

Lemma get_public_ip_quiet m :
  quiet m ->
  exists r m' errs,
    run _get_public_ip m = (Ok r, m') /\ quiet m' /\
    worker m' = counted (worker m) /\
    trace m' = trace m ++
      [LogAdded "API CALL: Fetching Public IP (icanhazip.com)";
       ApiCalled (api_count (worker m) + 1); ip_request] ++ errs /\
    Forall (fun ev => is_log ev = true) errs.
Proof.
  intros Hq. unfold _get_public_ip, emit_log_added.
  rewrite run_bind, run_prim_quiet by done.
  assert (Hq1 : quiet (record (LogAdded "API CALL: Fetching Public IP (icanhazip.com)")
                              (pop_fault m))) by solve_quiet.
  destruct (track_api_quiet _ Hq1) as (m2 & E2 & Hq2 & W2 & T2 & _ & _).
  rewrite run_bind, E2, run_bind. unfold urlopen_ip at 1. unfold run at 1.
  destruct (default (inr "no response") (head (ip_echo (world m2)))) as [body|e].
  - rewrite run_ret. eexists _, _, []. split; [reflexivity|].
    split; [solve_quiet|]. simpl. rewrite W2, T2. simpl.
    rewrite <- !app_assoc. by repeat split.
  - rewrite run_bind, run_prim_quiet by solve_quiet. rewrite run_ret.
    eexists _, _, [_]. split; [reflexivity|].
    split; [solve_quiet|]. simpl. rewrite W2, T2. simpl.
    rewrite <- !app_assoc. repeat split. by constructor.
Qed.

Lemma mark_resolving_quiet m :
  quiet m ->
  exists m',
    run mark_resolving m = (Ok tt, m') /\ quiet m' /\
    worker m' = mkWorker (enabled (worker m)) (last_status (worker m)) true
                         (api_count (worker m)) /\
    trace m' = trace m ++
      (if is_resolving (worker m) then [] else [StatusChanged yellow]) /\
    same_probe_env m m' /\ ip_echo (world m') = ip_echo (world m).
Proof.
  intros Hq. unfold mark_resolving, emit_status_changed, set_is_resolving.
  rewrite run_bind, run_get_worker.
  destruct (is_resolving (worker m)) eqn:R; simpl.
  - rewrite run_ret. exists m. rewrite app_nil_r.
    repeat split; auto. destruct m as [[] ? ?]; simpl in *; by subst.
  - exec. eexists. split; [reflexivity|]. split; [solve_quiet|].
    simpl. repeat split.
Qed.

(** The probes of a pass: what they return depends only on the listing, the
    operstate files and the connectivity outcomes. *)
Lemma probe_quiet m :
  quiet m ->
  exists v o m' files evs,
    run probe m = (Ok (v, o), m') /\ quiet m' /\
    worker m' = counted (worker m) /\
    trace m' = trace m ++ files ++
      [LogAdded "API CALL: Checking connectivity (google.com)";
       ApiCalled (api_count (worker m) + 1)] ++ evs /\
    Forall (fun ev => is_file_event ev = true) files /\
    (evs = [connectivity_attempt] \/
     evs = [connectivity_attempt; Sleep 1200; connectivity_attempt] \/
     evs = [connectivity_attempt; Sleep 1200; connectivity_attempt;
            Sleep 1200; connectivity_attempt]) /\
    (forall m1, quiet m1 -> same_probe_env m m1 -> (run probe m1).1 = Ok (v, o)).
Proof.
  intros Hq. unfold probe.
  destruct (scan_run m) as (files & Es & Ff & _).
  assert (Hq1 : quiet (mkMach (worker m) (world m)
                              (trace m ++ ListDir net_dir :: files)))
    by solve_quiet.
  destruct (has_internet_quiet _ Hq1) as (m2 & E2 & Hq2 & W2 & T2 & _).
  rewrite run_bind, Es, run_bind, E2, run_ret. simpl in *.
  eexists _, _, m2, (ListDir net_dir :: files), _.
  split; [reflexivity|]. split; [done|]. split; [done|].
  split; [rewrite T2, <- !app_assoc; reflexivity|].
  split; [by constructor|].
  split.
  { destruct (reach_nth (world m) 0); [by left|].
    destruct (reach_nth (world m) 1); [right; by left|]. right; by right. }
  intros m1 Hm1 (Hl & Ho & Hr).
  destruct (scan_run m1) as (files1 & Es1 & _).
  assert (Hq1' : quiet (mkMach (worker m1) (world m1)
                               (trace m1 ++ ListDir net_dir :: files1)))
    by solve_quiet.
  destruct (has_internet_quiet _ Hq1') as (m2' & E2' & _).
  rewrite run_bind, Es1, run_bind, E2', run_ret. simpl.
  unfold listing, reach_nth. rewrite Hl, Ho, Hr. reflexivity.
Qed.

Lemma ip_suffix_quiet c src o m :
  quiet m ->
  let fetch := bool_decide (c = blue) || (bool_decide (src = Manual) && o) in
  exists sfx m' errs,
    run (ip_suffix_for c src o) m = (Ok sfx, m') /\ quiet m' /\
    worker m' = (if fetch then counted (worker m) else worker m) /\
    trace m' = trace m ++
      (if fetch
       then [LogAdded "API CALL: Fetching Public IP (icanhazip.com)";
             ApiCalled (api_count (worker m) + 1); ip_request] ++ errs
       else []) /\
    Forall (fun ev => is_log ev = true) errs.
Proof.
  intros Hq fetch. unfold ip_suffix_for. fold fetch. destruct fetch.
  - destruct (get_public_ip_quiet _ Hq) as (r & m' & errs & E & Hq' & W & T & F).
    rewrite run_bind, E.
    exists (match r with
            | Some a => if Text.truthy a then " (IP: " +:+ a +:+ ")" else ""
            | None => ""
            end), m', errs.
    split; [|done].
    destruct r as [a|]; [destruct (Text.truthy a)|]; by rewrite run_ret.
  - rewrite run_ret. exists "", m, []. rewrite app_nil_r. by repeat split.
Qed.

(** Lines 103-128 on a machine that raises nothing. *)
Lemma conclude_quiet src v o m :
  quiet m ->
  let c := (classify v o).1 in
  let label := (classify v o).2 in
  let changed := negb (bool_decide (Some c = last_status (worker m))) in
  let fetch := bool_decide (c = blue) || (bool_decide (src = Manual) && o) in
  let notify := bool_decide (c = blue) && (changed || forced src) in
  exists m',
    run (conclude src v o) m = (Ok tt, m') /\ quiet m' /\
    if changed || is_resolving (worker m) || forced src then
      exists sfx errs,
        worker m' = mkWorker (enabled (worker m)) (Some c) false
                             (api_count (worker m) + (if fetch then 1 else 0)) /\
        trace m' = trace m ++ [StatusChanged c] ++
          (if fetch
           then [LogAdded "API CALL: Fetching Public IP (icanhazip.com)";
                 ApiCalled (api_count (worker m) + 1); ip_request] ++ errs
           else []) ++
          [LogAdded ("STATUS: " +:+ label +:+ " [" +:+ source_str src +:+ "]"
                     +:+ sfx)] ++
          (if notify
           then [NotificationTimer 200 dropped_title dropped_message true]
           else []) /\
        Forall (fun ev => is_log ev = true) errs
    else worker m' = worker m /\ trace m' = trace m.
Proof.
  intros Hq c label changed fetch notify. unfold conclude.
  subst c label. destruct (classify v o) as [c label]. simpl in *.
  rewrite run_bind, run_get_worker. fold changed. fold notify.
  destruct (changed || is_resolving (worker m) || forced src) eqn:Eemit.
  - unfold set_last_status, set_is_resolving, emit_status_changed,
      emit_log_added, start_notification_timer.
    rewrite run_bind. exec.
    match goal with |- context [run (ip_suffix_for c src o) ?m1] =>
      assert (Hq1 : quiet m1) by solve_quiet;
      destruct (ip_suffix_quiet c src o m1 Hq1)
        as (sfx & m2 & errs & E2 & Hq2 & W2 & T2 & F2)
    end.
    rewrite E2. exec. fold fetch in W2, T2. simpl in W2, T2.
    destruct notify.
    + exec. eexists. split; [reflexivity|]. split; [solve_quiet|].
      exists sfx, errs. simpl. rewrite W2, T2.
      split; [destruct fetch; simpl; f_equal; lia|].
      split; [|done]. rewrite <- !app_assoc. reflexivity.
    + exec. eexists. split; [reflexivity|]. split; [solve_quiet|].
      exists sfx, errs. simpl. rewrite W2, T2.
      split; [destruct fetch; simpl; f_equal; lia|].
      split; [|done]. rewrite <- !app_assoc. simpl. by rewrite ?app_nil_r.
  - assert (notify = false) as ->.
    { subst notify. apply orb_false_iff in Eemit as [Eemit Hf].
      apply orb_false_iff in Eemit as [Hc _]. rewrite Hc, Hf.
      apply andb_false_r. }
    exec. exists m. by repeat split.
Qed.

Lemma same_probe_env_sym m m' : same_probe_env m m' -> same_probe_env m' m.
Proof. intros (?&?&?). by repeat split. Qed.

(** A whole pass on an enabled worker when nothing raises: every such pass
    emits its classification and a STATUS log line. *)
Lemma pass_quiet src m v o :
  enabled (worker m) = true ->
  quiet m ->
  (run probe m).1 = Ok (v, o) ->
  let c := (classify v o).1 in
  let label := (classify v o).2 in
  let changed := negb (bool_decide (Some c = last_status (worker m))) in
  let fetch := bool_decide (c = blue) || (bool_decide (src = Manual) && o) in
  let notify := bool_decide (c = blue) && (changed || forced src) in
  exists m' files evs sfx errs,
    run (perform_check src) m = (Ok tt, m') /\ quiet m' /\
    worker m' = mkWorker true (Some c) false
                         (api_count (worker m) + 1 + (if fetch then 1 else 0)) /\
    trace m' = trace m ++
      (if is_resolving (worker m) then [] else [StatusChanged yellow]) ++
      files ++
      [LogAdded "API CALL: Checking connectivity (google.com)";
       ApiCalled (api_count (worker m) + 1)] ++
      evs ++
      [StatusChanged c] ++
      (if fetch
       then [LogAdded "API CALL: Fetching Public IP (icanhazip.com)";
             ApiCalled (api_count (worker m) + 1 + 1); ip_request] ++ errs
       else []) ++
      [LogAdded ("STATUS: " +:+ label +:+ " [" +:+ source_str src +:+ "]"
                 +:+ sfx)] ++
      (if notify
       then [NotificationTimer 200 dropped_title dropped_message true]
       else []) /\
    Forall (fun ev => is_file_event ev = true) files /\
    (evs = [connectivity_attempt] \/
     evs = [connectivity_attempt; Sleep 1200; connectivity_attempt] \/
     evs = [connectivity_attempt; Sleep 1200; connectivity_attempt;
            Sleep 1200; connectivity_attempt]) /\
    Forall (fun ev => is_log ev = true) errs.
Proof.
  intros Hen Hq Hp c label changed fetch notify.
  unfold perform_check. rewrite run_bind, run_get_worker, Hen. simpl.
  destruct (mark_resolving_quiet m Hq) as (m1 & E1 & Hq1 & W1 & T1 & Env1 & _).
  rewrite run_bind, E1, run_try_except. unfold check_body. rewrite run_bind.
  destruct (probe_quiet m1 Hq1)
    as (v1 & o1 & m2 & files & evs & E2 & Hq2 & W2 & T2 & Ff & Hevs & Hdet).
  specialize (Hdet m Hq (same_probe_env_sym _ _ Env1)).
  rewrite Hp in Hdet. injection Hdet as <- <-.
  rewrite E2. simpl.
  destruct (conclude_quiet src v o m2 Hq2) as (m3 & E3 & Hq3 & Hd).
  rewrite E3. rewrite W2, W1 in Hd. simpl in Hd.
  rewrite orb_true_r in Hd. simpl in Hd.
  destruct Hd as (sfx & errs & W3 & T3 & Fe).
  exists m3, files, evs, sfx, errs.
  split; [reflexivity|]. split; [done|].
  split; [by rewrite W3, Hen|].
  split; [|done].
  rewrite T3, T2, T1, W1. simpl. rewrite <- !app_assoc. reflexivity.
Qed.

(** ** Membership in the events of a pass *)

Lemma Forall_flag_notin (P : Event -> bool) (l : list Event) (ev : Event) :
  Forall (fun e => P e = true) l -> P ev = false -> ev ∉ l.
Proof.
  intros F Hev Hin. rewrite Forall_forall in F.
  specialize (F ev Hin). congruence.
Qed.

Lemma filter_flag_nil (P Q : Event -> bool) (l : list Event) :
  (forall ev, Q ev = true -> P ev = false) ->
  Forall (fun e => Q e = true) l -> List.filter P l = [].
Proof.
  intros HPQ F. induction F as [|a l Ha _ IH]; [reflexivity|].
  simpl. by rewrite (HPQ a Ha).
Qed.

Lemma filter_filter_sub (P Q : Event -> bool) (l : list Event) :
  (forall ev, P ev = true -> Q ev = true) ->
  List.filter P (List.filter Q l) = List.filter P l.
Proof.
  intros HPQ. induction l as [|a l IH]; [reflexivity|]. simpl.
  destruct (Q a) eqn:Qa; simpl; rewrite IH; [reflexivity|].
  destruct (P a) eqn:Pa; [|reflexivity]. apply HPQ in Pa. congruence.
Qed.

Lemma elem_of_requests url t (l : list Event) :
  HttpGet url t ∈ l <-> HttpGet url t ∈ requests l.
Proof.
  unfold requests. rewrite !list_elem_of_In, filter_In. simpl. tauto.
Qed.

Lemma attempts_made_requests (l : list Event) :
  attempts_made l = attempts_made (requests l).
Proof.
  unfold attempts_made, requests. rewrite filter_filter_sub; [reflexivity|].
  intros ev H. apply bool_decide_eq_true_1 in H. by subst.
Qed.

(** The HTTP requests of a pass that raises nothing: one to three attempts
    on the connectivity endpoint, then the IP-echo request when line 119
    asks for it. *)
Lemma pass_requests src m v o :
  enabled (worker m) = true ->
  quiet m ->
  (run probe m).1 = Ok (v, o) ->
  let c := (classify v o).1 in
  let fetch := bool_decide (c = blue) || (bool_decide (src = Manual) && o) in
  exists m' tries,
    run (perform_check src) m = (Ok tt, m') /\
    api_count (worker m') = api_count (worker m) + 1 + (if fetch then 1 else 0) /\
    requests (emitted m m') = tries ++ (if fetch then [ip_request] else []) /\
    (tries = [connectivity_attempt] \/
     tries = [connectivity_attempt; connectivity_attempt] \/
     tries = [connectivity_attempt; connectivity_attempt; connectivity_attempt]).
Proof.
  intros Hen Hq Hp c fetch.
  destruct (pass_quiet src m v o Hen Hq Hp)
    as (m' & files & evs & sfx & errs & E & _ & W & T & Ff & Hevs & Fe).
  exists m', (requests evs).
  split; [exact E|]. split; [by rewrite W|].
  split.
  - rewrite (emitted_app _ _ _ T). unfold requests.
    rewrite !List.filter_app.
    rewrite (filter_flag_nil is_request is_file_event files) by (done || by intros []).
    fold c. fold fetch.
    replace (List.filter is_request
               (if is_resolving (worker m) then [] else [StatusChanged yellow]))
      with (@nil Event) by (by destruct (is_resolving (worker m))).
    replace (List.filter is_request
               (if fetch
                then [LogAdded "API CALL: Fetching Public IP (icanhazip.com)";
                      ApiCalled (api_count (worker m) + 1 + 1); ip_request] ++ errs
                else []))
      with (if fetch then [ip_request] else []).
    2:{ destruct fetch; [|reflexivity]. rewrite List.filter_app.
        rewrite (filter_flag_nil is_request is_log errs) by (done || by intros []).
        reflexivity. }
    match goal with |- context [List.filter is_request (if ?b then _ else _)] =>
      destruct b end; simpl; by rewrite ?app_nil_r.
  - destruct Hevs as [-> | [-> | ->]]; vm_compute; tauto.
Qed.

(** ** Properties of the specification *)

(** C1. For every resolution pass, given the probed inputs [v]
    (hasActiveVpn) and [o] (isOnline), the classification the pass computes,
    stores and emits is Protected (green) when both are true, Insecure (blue)
    when only [o] is true, and Offline (red) whenever [o] is false. *)
Theorem classification_table src m v o :
  enabled (worker m) = true ->
  quiet m ->
  (run probe m).1 = Ok (v, o) ->
  exists m',
    run (perform_check src) m = (Ok tt, m') /\
    last_status (worker m') = Some (classify v o).1 /\
    StatusChanged (classify v o).1 ∈ emitted m m' /\
    (v = true -> o = true -> classify v o = (green, "Protected")) /\
    (v = false -> o = true -> classify v o = (blue, "Insecure")) /\
    (o = false -> classify v o = (red, "Offline")).
Proof.
  intros Hen Hq Hp.
  destruct (pass_quiet src m v o Hen Hq Hp)
    as (m' & files & evs & sfx & errs & E & _ & W & T & _).
  exists m'. split; [exact E|]. split; [by rewrite W|].
  split.
  - rewrite (emitted_app _ _ _ T), !elem_of_app. do 4 right. left. constructor.
  - repeat split; intros; subst; try reflexivity. by destruct v.
Qed.

Lemma classification_table_witness :
  exists m',
    run (perform_check Manual) (mkMach fresh_worker host_wg0_online []) = (Ok tt, m') /\
    last_status (worker m') = Some green /\
    StatusChanged green ∈ emitted (mkMach fresh_worker host_wg0_online []) m' /\
    (true = true -> true = true -> classify true true = (green, "Protected")) /\
    (true = false -> true = true -> classify true true = (blue, "Insecure")) /\
    (true = false -> classify true true = (red, "Offline")).
Proof.
  apply (classification_table Manual (mkMach fresh_worker host_wg0_online [])
                              true true).
  - reflexivity.
  - unfold quiet. simpl. constructor.
  - vm_compute. reflexivity.
Defined.

(** C10. A pass invoked while [enabled] is false returns at once and is a
    no-op: the machine (worker fields, probe counter, trace of status
    updates, log lines and notifications) is left as it was. *)
Theorem disabled_pass_is_noop src m :
  enabled (worker m) = false ->
  run (perform_check src) m = (Ok tt, m) /\ emitted m m = [].
Proof.
  intros Hen. split.
  - unfold perform_check. rewrite run_bind, run_get_worker, Hen. reflexivity.
  - unfold emitted. apply drop_all.
Qed.

Lemma disabled_pass_is_noop_witness :
  let m := mkMach (mkWorker false (Some blue) true 4) host_wg0_online
                  [StatusChanged grey] in
  run (perform_check Manual) m = (Ok tt, m) /\ emitted m m = [].
Proof.
  apply (disabled_pass_is_noop Manual). reflexivity.
Defined.

(** C4. [_has_internet] requests the fixed connectivity endpoint at most
    three times, each with a 3000 ms time-out; it returns true right after
    the first attempt that succeeds, sleeps 1200 ms after a failed first or
    second attempt but not after a failed third one, and returns false
    exactly when all three attempts fail. *)
Theorem has_internet_attempts m :
  quiet m ->
  let r := reach_nth (world m) in
  exists b m',
    run _has_internet m = (Ok b, m') /\
    emitted m m' =
      [LogAdded "API CALL: Checking connectivity (google.com)";
       ApiCalled (api_count (worker m) + 1)] ++
      (if r 0 then [HttpGet connectivity_url 3000]
       else if r 1 then
         [HttpGet connectivity_url 3000; Sleep 1200;
          HttpGet connectivity_url 3000]
       else
         [HttpGet connectivity_url 3000; Sleep 1200;
          HttpGet connectivity_url 3000; Sleep 1200;
          HttpGet connectivity_url 3000]) /\
    b = (r 0 || r 1 || r 2) /\
    (b = false <-> r 0 = false /\ r 1 = false /\ r 2 = false).
Proof.
  intros Hq r.
  destruct (has_internet_quiet m Hq) as (m' & E & _ & _ & T & _).
  exists (r 0 || r 1 || r 2), m'.
  split; [exact E|]. split; [exact (emitted_app _ _ _ T)|].
  split; [reflexivity|].
  destruct (r 0), (r 1), (r 2); simpl; intuition discriminate.
Qed.

Lemma has_internet_attempts_witness :
  exists b m',
    run _has_internet (mkMach fresh_worker host_tun0_unknown []) = (Ok b, m') /\
    emitted (mkMach fresh_worker host_tun0_unknown []) m' =
      [LogAdded "API CALL: Checking connectivity (google.com)"; ApiCalled 1;
       HttpGet connectivity_url 3000; Sleep 1200;
       HttpGet connectivity_url 3000; Sleep 1200;
       HttpGet connectivity_url 3000] /\
    b = true /\
    (b = false <-> false = false /\ false = false /\ true = false).
Proof.
  apply (has_internet_attempts (mkMach fresh_worker host_tun0_unknown [])).
  unfold quiet. simpl. constructor.
Defined.

(** C3. After a pass the probe counter equals its value before the pass,
    plus one if the connectivity endpoint was requested, plus one if the
    IP-echo endpoint was requested, whatever the number of HTTP attempts
    (at most three); [_has_internet] alone adds exactly one to the counter
    while it makes between one and three attempts. *)
Theorem probe_accounting src m :
  quiet m ->
  (exists m',
     run (perform_check src) m = (Ok tt, m') /\
     api_count (worker m') =
       api_count (worker m)
       + (if bool_decide (connectivity_attempt ∈ emitted m m') then 1 else 0)
       + (if bool_decide (ip_request ∈ emitted m m') then 1 else 0) /\
     attempts_made (emitted m m') <= 3) /\
  (exists b m2,
     run _has_internet m = (Ok b, m2) /\
     api_count (worker m2) = api_count (worker m) + 1 /\
     1 <= attempts_made (emitted m m2) <= 3).
Proof.
  intros Hq. split.
  - destruct (enabled (worker m)) eqn:Hen.
    + destruct (probe_quiet m Hq) as (v & o & mp & _ & _ & Ep & _).
      assert (Hp : (run probe m).1 = Ok (v, o)) by (by rewrite Ep).
      destruct (pass_requests src m v o Hen Hq Hp) as (m' & tries & E & W & R & Ht).
      exists m'. split; [exact E|].
      unfold connectivity_attempt, ip_request in *.
      rewrite attempts_made_requests, W.
      rewrite (bool_decide_ext _ _ (elem_of_requests connectivity_url 3000 _)).
      rewrite (bool_decide_ext _ _ (elem_of_requests ip_url 5000 _)).
      rewrite R.
      destruct Ht as [-> | [-> | ->]];
        destruct (bool_decide _ || _); vm_compute; lia.
    + exists m. split.
      * unfold perform_check. rewrite run_bind, run_get_worker, Hen. reflexivity.
      * unfold emitted. rewrite drop_all. simpl. split; [|vm_compute]; lia.
  - destruct (has_internet_quiet m Hq) as (m2 & E & _ & W & T & _).
    eexists _, m2. split; [exact E|]. split; [by rewrite W|].
    rewrite (emitted_app _ _ _ T).
    destruct (reach_nth (world m) 0); [vm_compute; lia|].
    destruct (reach_nth (world m) 1); vm_compute; lia.
Qed.

Lemma probe_accounting_witness :
  let m := mkMach fresh_worker host_wg0_online [] in
  (exists m',
     run (perform_check Manual) m = (Ok tt, m') /\
     api_count (worker m') =
       api_count (worker m)
       + (if bool_decide (connectivity_attempt ∈ emitted m m') then 1 else 0)
       + (if bool_decide (ip_request ∈ emitted m m') then 1 else 0) /\
     attempts_made (emitted m m') <= 3) /\
  (exists b m2,
     run _has_internet m = (Ok b, m2) /\
     api_count (worker m2) = api_count (worker m) + 1 /\
     1 <= attempts_made (emitted m m2) <= 3).
Proof.
  apply (probe_accounting Manual (mkMach fresh_worker host_wg0_online [])).
  unfold quiet. simpl. constructor.
Defined.

(** C5, as the code has it. The scan never raises and leaves worker and
    world untouched. It returns true exactly when some listed interface whose
    name starts with "tun", "wg" or "ppp" has a readable operstate file whose
    stripped, lower-cased text differs from "down" (so the text "unknown"
    counts as up, while an unreadable or missing file counts as not up). With
    no such interface name in the listing, or when the listing fails, the
    result is false and nothing is read beyond the directory listing. *)
Theorem scan_spec m :
  exists b m',
    run scan m = (Ok b, m') /\
    worker m' = worker m /\ world m' = world m /\
    (b = true <->
     exists i txt,
       i ∈ listing (world m) /\
       (String.prefix "tun" i = true \/ String.prefix "wg" i = true \/
        String.prefix "ppp" i = true) /\
       operstate (world m) i = Some txt /\
       Text.lower (Text.strip txt) <> "down") /\
    (List.filter is_vpn_candidate (listing (world m)) = [] ->
     b = false /\ emitted m m' = [ListDir net_dir]) /\
    (net_listing (world m) = None ->
     b = false /\ emitted m m' = [ListDir net_dir]).
Proof.
  destruct (scan_run m) as (evs & E & _ & Hnil).
  eexists _, _. split; [exact E|]. simpl.
  split; [reflexivity|]. split; [reflexivity|].
  assert (Hempty : List.filter is_vpn_candidate (listing (world m)) = [] ->
                   existsb (fun i =>
                      match operstate (world m) i with
                      | Some txt =>
                          negb (String.eqb (Text.lower (Text.strip txt)) "down")
                      | None => false
                      end) (List.filter is_vpn_candidate (listing (world m))) = false
                   /\ emitted m (mkMach (worker m) (world m)
                                        (trace m ++ ListDir net_dir :: evs))
                      = [ListDir net_dir]).
  { intros Hf. rewrite (Hnil Hf), Hf. split; [reflexivity|].
    by apply emitted_app. }
  split; [|split; [exact Hempty|]].
  - rewrite existsb_exists. split.
    + intros (i & Hin & Hup). apply filter_In in Hin as [Hin Hc].
      destruct (operstate (world m) i) as [txt|] eqn:Eo; [|discriminate].
      exists i, txt. split; [by apply list_elem_of_In|].
      split.
      * unfold is_vpn_candidate, vpn_prefixes, Text.startswith in Hc. simpl in Hc.
        rewrite orb_false_r in Hc.
        apply orb_true_iff in Hc as [Hc|Hc]; [by left|].
        apply orb_true_iff in Hc as [Hc|Hc]; [right; by left|right; by right].
      * split; [exact Eo|]. intros Hd. rewrite Hd in Hup. discriminate.
    + intros (i & txt & Hin & Hp & Eo & Hd). exists i. split.
      * apply filter_In. split; [by apply list_elem_of_In|].
        unfold is_vpn_candidate, vpn_prefixes, Text.startswith. simpl.
        destruct Hp as [-> | [-> | ->]]; by rewrite ?orb_true_r.
      * rewrite Eo. apply negb_true_iff. by apply String.eqb_neq.
  - intros Hn. apply Hempty. unfold listing. by rewrite Hn.
Qed.

(** C5, counterexample: on a host whose only tunnel device [tun0] reports
    the operational state "unknown", the scan returns true. *)
Lemma scan_counts_unknown_as_up :
  let m := mkMach fresh_worker host_tun0_unknown [] in
  List.filter is_vpn_candidate (listing (world m)) = ["tun0"] /\
  operstate (world m) "tun0" = Some "unknown" /\
  (run scan m).1 = Ok true.
Proof. vm_compute. repeat split. Qed.

(** C7, as the code has it. In every enabled pass that raises nothing (each
    such pass emits), the IP-echo endpoint is requested exactly when the
    classification is Insecure, or the source is Manual and the host is
    online; so a Manual pass classified Protected requests it as well. *)
Theorem ip_fetch_condition src m v o :
  enabled (worker m) = true ->
  quiet m ->
  (run probe m).1 = Ok (v, o) ->
  exists m',
    run (perform_check src) m = (Ok tt, m') /\
    StatusChanged (classify v o).1 ∈ emitted m m' /\
    (ip_request ∈ emitted m m' <->
     classify v o = (blue, "Insecure") \/ (src = Manual /\ o = true)).
Proof.
  intros Hen Hq Hp.
  destruct (pass_quiet src m v o Hen Hq Hp)
    as (m' & files & evs & sfx & errs & E & _ & _ & T & _).
  destruct (pass_requests src m v o Hen Hq Hp) as (m2 & tries & E2 & _ & R & Ht).
  rewrite E in E2. injection E2 as <-.
  exists m'. split; [exact E|].
  split; [rewrite (emitted_app _ _ _ T), !elem_of_app; do 4 right; left; constructor|].
  unfold ip_request. rewrite elem_of_requests, R.
  assert (Hfetch : bool_decide ((classify v o).1 = blue)
                   || (bool_decide (src = Manual) && o) = true
                   <-> classify v o = (blue, "Insecure") \/ (src = Manual /\ o = true)).
  { rewrite orb_true_iff, andb_true_iff, !bool_decide_eq_true.
    split; (intros [H|H]; [left|by right]).
    - by destruct v, o.
    - by rewrite H. }
  rewrite <- Hfetch.
  destruct (bool_decide _ || _);
    destruct Ht as [-> | [-> | ->]]; simpl;
    rewrite ?elem_of_cons, elem_of_nil; unfold connectivity_attempt;
    split; try tauto; try discriminate;
    intros H; repeat (destruct H as [H|H]; try discriminate); done.
Qed.

Lemma ip_fetch_condition_witness :
  let m := mkMach fresh_worker host_wg0_online [] in
  exists m',
    run (perform_check Manual) m = (Ok tt, m') /\
    StatusChanged (classify true true).1 ∈ emitted m m' /\
    (ip_request ∈ emitted m m' <->
     classify true true = (blue, "Insecure") \/ (Manual = Manual /\ true = true)).
Proof.
  apply (ip_fetch_condition Manual (mkMach fresh_worker host_wg0_online [])
                            true true).
  - reflexivity.
  - unfold quiet. simpl. constructor.
  - vm_compute. reflexivity.
Defined.

(** C7, counterexample: a Manual pass on a protected, online host is
    classified Protected and still requests the IP-echo endpoint. *)
Lemma manual_protected_pass_fetches_ip :
  let m := mkMach fresh_worker host_wg0_online [] in
  let r := run (perform_check Manual) m in
  r.1 = Ok tt /\
  last_status (worker r.2) = Some green /\
  emitted m r.2 =
    [StatusChanged yellow;
     ListDir "/sys/class/net/"; ReadFile "/sys/class/net/wg0/operstate";
     LogAdded "API CALL: Checking connectivity (google.com)"; ApiCalled 1;
     HttpGet "http://www.google.com" 3000;
     StatusChanged green;
     LogAdded "API CALL: Fetching Public IP (icanhazip.com)"; ApiCalled 2;
     HttpGet "https://icanhazip.com" 5000;
     LogAdded "STATUS: Protected [Manual] (IP: 203.0.113.7)"].
Proof. vm_compute. repeat split. Qed.

(** C2, as the code has it. A pass with source Auto whose classification
    equals the previous one and whose [is_resolving] flag was false before
    the pass first emits the transient status (yellow), which sets the flag,
    and therefore also emits the classification and ends with the STATUS log
    line; what it leaves out is the "VPN dropped" notification. *)
Theorem auto_unchanged_pass_emits m v o :
  enabled (worker m) = true ->
  quiet m ->
  (run probe m).1 = Ok (v, o) ->
  is_resolving (worker m) = false ->
  last_status (worker m) = Some (classify v o).1 ->
  exists m' sfx,
    run (perform_check Auto) m = (Ok tt, m') /\
    head (emitted m m') = Some (StatusChanged yellow) /\
    StatusChanged (classify v o).1 ∈ emitted m m' /\
    last (emitted m m') =
      Some (LogAdded ("STATUS: " +:+ (classify v o).2 +:+ " [Auto]" +:+ sfx)) /\
    Forall (fun ev => is_notification ev = false) (emitted m m').
Proof.
  intros Hen Hq Hp Hr Hl.
  destruct (pass_quiet Auto m v o Hen Hq Hp)
    as (m' & files & evs & sfx & errs & E & _ & _ & T & Ff & Hevs & Fe).
  exists m', sfx. split; [exact E|].
  rewrite Hr, Hl in T.
  rewrite (bool_decide_eq_true_2 (Some _ = Some _)) in T by reflexivity.
  change (negb true || forced Auto) with false in T.
  rewrite andb_false_r in T. cbn beta iota in T.
  rewrite (emitted_app _ _ _ T).
  split; [reflexivity|].
  split; [rewrite !elem_of_app; do 4 right; left; constructor|].
  split.
  - rewrite app_nil_r, !app_assoc. apply last_snoc.
  - assert (Hfile : forall ev, is_file_event ev = true -> is_notification ev = false)
      by (by intros []).
    assert (Hlog : forall ev, is_log ev = true -> is_notification ev = false)
      by (by intros []).
    rewrite !Forall_app.
    split; [by repeat constructor|].
    split; [by eapply Forall_impl|].
    split; [by repeat constructor|].
    split; [destruct Hevs as [-> | [-> | ->]]; by repeat constructor|].
    split; [by repeat constructor|].
    split; [|by repeat constructor].
    destruct (_ || _); [|constructor].
    rewrite Forall_app. split; [by repeat constructor|by eapply Forall_impl].
Qed.

Lemma auto_unchanged_pass_emits_witness :
  let m := mkMach (mkWorker true (Some green) false 0) host_wg0_online [] in
  exists m' sfx,
    run (perform_check Auto) m = (Ok tt, m') /\
    head (emitted m m') = Some (StatusChanged yellow) /\
    StatusChanged (classify true true).1 ∈ emitted m m' /\
    last (emitted m m') =
      Some (LogAdded ("STATUS: " +:+ (classify true true).2 +:+ " [Auto]" +:+ sfx)) /\
    Forall (fun ev => is_notification ev = false) (emitted m m').
Proof.
  apply (auto_unchanged_pass_emits
           (mkMach (mkWorker true (Some green) false 0) host_wg0_online [])
           true true).
  - reflexivity.
  - unfold quiet. simpl. constructor.
  - vm_compute. reflexivity.
  - reflexivity.
  - reflexivity.
Defined.

(** C2, counterexample: an Auto pass on a host that was Protected and still
    is, with [is_resolving] false before the pass, emits two status updates
    and two log lines. *)
Lemma auto_unchanged_pass_not_suppressed :
  let m := mkMach (mkWorker true (Some green) false 0) host_wg0_online [] in
  let r := run (perform_check Auto) m in
  is_resolving (worker m) = false /\
  (run probe m).1 = Ok (true, true) /\
  last_status (worker m) = Some (classify true true).1 /\
  r.1 = Ok tt /\
  emitted m r.2 =
    [StatusChanged yellow;
     ListDir "/sys/class/net/"; ReadFile "/sys/class/net/wg0/operstate";
     LogAdded "API CALL: Checking connectivity (google.com)"; ApiCalled 1;
     HttpGet "http://www.google.com" 3000;
     StatusChanged green;
     LogAdded "STATUS: Protected [Auto]"].
Proof. vm_compute. repeat split. Qed.

(** C6. When the body of the outer [try] (probing, classification,
    emission, notification) raises, [perform_check] still returns normally:
    the handler appends a CRITICAL ERROR log line, clears [is_resolving] and
    emits the Offline status (red), provided the handler's own two emissions
    do not raise. *)
Theorem failure_is_caught src m0 m1 m2 e :
  enabled (worker m0) = true ->
  run mark_resolving m0 = (Ok tt, m1) ->
  run (check_body src) m1 = (Raise e, m2) ->
  Forall (fun f => f = None) (take 2 (faults (world m2))) ->
  exists m3,
    run (perform_check src) m0 = (Ok tt, m3) /\
    is_resolving (worker m3) = false /\
    trace m3 = trace m2 ++ [LogAdded ("CRITICAL ERROR: " +:+ e);
                            StatusChanged red].
Proof.
  intros Hen E1 E2 Hf.
  unfold perform_check. rewrite run_bind, run_get_worker, Hen. simpl.
  rewrite run_bind, E1, run_try_except, E2.
  unfold on_failure, emit_log_added, emit_status_changed, set_is_resolving.
  assert (H1 : next_fault m2 = None).
  { unfold next_fault. destruct (faults (world m2)) as [|[x|] fs]; try done.
    inversion Hf; subst. discriminate. }
  rewrite run_bind, (run_prim_ok _ _ H1), run_bind, run_set_worker.
  rewrite run_prim_ok.
  - eexists. split; [reflexivity|]. simpl. split; [reflexivity|].
    by rewrite <- app_assoc.
  - unfold next_fault. simpl.
    destruct (faults (world m2)) as [|x [|[y|] fs]]; try done.
    inversion Hf as [|? ? _ Hf']; subst. inversion Hf'; subst. discriminate.
Qed.

Lemma failure_is_caught_witness :
  let m0 := mkMach fresh_worker host_emit_raises [] in
  let m1 := (run mark_resolving m0).2 in
  let m2 := (run (check_body Auto) m1).2 in
  exists m3,
    run (perform_check Auto) m0 = (Ok tt, m3) /\
    is_resolving (worker m3) = false /\
    trace m3 = trace m2 ++
      [LogAdded ("CRITICAL ERROR: " +:+ "wrapped C/C++ object has been deleted");
       StatusChanged red].
Proof.
  apply (failure_is_caught Auto (mkMach fresh_worker host_emit_raises [])
           (run mark_resolving (mkMach fresh_worker host_emit_raises [])).2
           (run (check_body Auto)
                (run mark_resolving (mkMach fresh_worker host_emit_raises [])).2).2
           "wrapped C/C++ object has been deleted").
  - reflexivity.
  - vm_compute. reflexivity.
  - vm_compute. reflexivity.
  - vm_compute. constructor.
Defined.

(** The handler is not itself protected. On a host where the emission on
    line 49 raises and the handler's own log emission (line 131) raises as
    well, the body of the [try] fails, yet [perform_check] raises to its
    caller: no CRITICAL ERROR line and no Offline status are emitted, and
    [is_resolving] stays set. *)
Lemma failure_escapes_when_handler_fails :
  let m0 := mkMach fresh_worker host_signals_fail [] in
  let m1 := (run mark_resolving m0).2 in
  let r := run (perform_check Auto) m0 in
  (run mark_resolving m0).1 = Ok tt /\
  (run (check_body Auto) m1).1 = Raise "wrapped C/C++ object has been deleted" /\
  r.1 = Raise "wrapped C/C++ object has been deleted" /\
  is_resolving (worker r.2) = true /\
  trace r.2 = [StatusChanged yellow; ListDir "/sys/class/net/"].
Proof. vm_compute. repeat split. Qed.

(** ** The debounce timer *)

Lemma note_change_quiet m :
  quiet m ->
  exists m',
    run note_change m = (Ok tt, m') /\ quiet m' /\
    enabled (worker m') = enabled (worker m).
Proof.
  intros Hq. unfold note_change, emit_status_changed, set_is_resolving,
    set_last_status.
  rewrite run_bind, run_get_worker.
  destruct (is_resolving (worker m)); simpl.
  - rewrite run_ret. by exists m.
  - exec. eexists. split; [reflexivity|]. split; [solve_quiet|]. reflexivity.
Qed.

Lemma alter_last {A} (f : A -> A) (old : list A) (x : A) :
  alter f (length old) (old ++ [x]) = old ++ [f x].
Proof.
  rewrite <- (Nat.add_0_r (length old)) at 1. by rewrite alter_app_r.
Qed.

Lemma on_line_skip now line L :
  qualifies line = false -> on_line now line L = L.
Proof.
  intros Hq. unfold on_line. rewrite Hq.
  destruct (negb (alive L)); [reflexivity|].
  by destruct (negb (enabled (worker (mach L)))).
Qed.

Lemma fires_at_cancel late now T :
  pending late now T = false ->
  fires_at late (timer_cancel now T) = fires_at late T /\
  callback (timer_cancel now T) = callback T.
Proof.
  unfold pending, timer_cancel, fires_at.
  destruct T as [iv f [s|] [c|]]; simpl; try done.
  intros H. split; [|done]. by rewrite H.
Qed.

Lemma firings_app late a b :
  firings late (a ++ b) = firings late a ++ firings late b.
Proof. apply omap_app. Qed.

Lemma firings_alter late f k ts :
  (forall T, ts !! k = Some T ->
             fires_at late (f T) = fires_at late T /\
             callback (f T) = callback T) ->
  firings late (alter f k ts) = firings late ts.
Proof.
  revert k. induction ts as [|T ts IH]; intros k H; [done|].
  destruct k as [|k].
  - destruct (H T eq_refl) as [E1 E2]. unfold firings. simpl.
    by rewrite E1, E2.
  - change (alter f (S k) (T :: ts)) with ([T] ++ alter f k ts).
    change (T :: ts) with ([T] ++ ts).
    rewrite !firings_app, IH; [done|].
    intros T' HT'. by apply H.
Qed.

(** Cancelling a timer that is not pending changes nothing of what runs. *)
Lemma firings_cancel_idle late now L :
  debounce_pending late now L = false ->
  firings late (match _debounce_timer L with
                | Some k => alter (timer_cancel now) k (timers L)
                | None => timers L
                end) = triggered late L.
Proof.
  unfold debounce_pending, triggered.
  destruct (_debounce_timer L) as [k|]; [|done].
  intros Hp. apply firings_alter. intros T HT. apply fires_at_cancel.
  by rewrite HT in Hp.
Qed.

(** A timer cancelled before its deadline does not fire, whoever wins the
    race at the deadline. *)
Lemma fires_at_cancelled_early late iv f s c :
  (c < s + iv)%Z -> fires_at late (mkTimer iv f (Some s) (Some c)) = None.
Proof.
  intros H. unfold fires_at. simpl.
  by replace (c <? s + iv)%Z with true by (symmetry; by apply Z.ltb_lt).
Qed.

(** The first qualifying line of a burst arms the timer. *)
Lemma on_line_idle late now line L :
  idle late now L -> qualifies line = true ->
  armed late (on_line now line L) now (triggered late L).
Proof.
  intros (Ha & Hen & Hq & Hp) Hl. unfold on_line.
  rewrite Ha, Hen, Hl. simpl.
  destruct (note_change_quiet _ Hq) as (m1 & E1 & Hq1 & Hen1).
  rewrite E1, run_prim_quiet by done. simpl.
  rewrite alter_last.
  eexists. split; [reflexivity|].
  split; [by apply firings_cancel_idle|].
  repeat split; first [ done | by rewrite <- Hen | solve_quiet ].
Qed.

(** A qualifying line that arrives before the pending timer fires cancels
    it and arms a new one. *)
Lemma on_line_armed late now line L t before :
  armed late L t before -> qualifies line = true ->
  (t <= now < t + 2500)%Z ->
  armed late (on_line now line L) now before.
Proof.
  intros (old & Ht & Hold & Hd & Ha & Hen & Hq) Hl Hnow. unfold on_line.
  rewrite Ha, Hen, Hl, Hd, Ht. simpl.
  destruct (note_change_quiet _ Hq) as (m1 & E1 & Hq1 & Hen1).
  rewrite E1, run_prim_quiet by done. simpl.
  rewrite !alter_last. simpl.
  exists (old ++ [mkTimer 2500 trigger_check (Some t) (Some now)]).
  repeat split; try done.
  - rewrite firings_app, Hold. unfold firings. simpl.
    rewrite fires_at_cancelled_early by lia. simpl. by rewrite app_nil_r.
  - simpl. by rewrite Hen1.
  - solve_quiet.
Qed.

Lemma qualifying_times_cons tl lines :
  qualifying_times (tl :: lines) =
  if qualifies tl.2 then tl.1 :: qualifying_times lines
  else qualifying_times lines.
Proof. unfold qualifying_times. simpl. by destruct (qualifies tl.2). Qed.

Lemma idle_others late now L m' :
  meanwhile (mach L) m' -> idle late now L ->
  idle late now (with_mach m' L) /\
  triggered late (with_mach m' L) = triggered late L.
Proof.
  intros (He & Hq) (Ha & Hen & HqL & Hp). unfold idle. simpl.
  repeat split; try done. congruence. by apply Hq.
Qed.

Lemma armed_others late L m' t before :
  meanwhile (mach L) m' -> armed late L t before ->
  armed late (with_mach m' L) t before.
Proof.
  intros (He & Hq) (old & Ht & Hold & Hd & Ha & Hen & HqL).
  exists old. simpl. repeat split; try done. congruence. by apply Hq.
Qed.

(** The listener without interference is one of the possible runs. *)
Lemma listen_listens lines : forall L, listens lines L (listen lines L).
Proof.
  induction lines as [|[now line] lines IH]; intros L; [constructor|].
  apply listens_line. apply IH.
Qed.

Lemma listens_armed late lines L L' :
  listens lines L L' ->
  forall t before,
    armed late L t before ->
    close_together 2500 t (qualifying_times lines) ->
    armed late L' (default t (last (qualifying_times lines))) before.
Proof.
  induction 1 as [L | now line lines L L' _ IH | lines L m' L' Hm _ IH];
    intros t before HL Hc.
  - exact HL.
  - rewrite qualifying_times_cons in *. simpl in *.
    destruct (qualifies line) eqn:Hl.
    + destruct Hc as [Hnow Hc].
      pose proof (IH _ _ (on_line_armed _ _ _ _ _ _ HL Hl Hnow) Hc) as H.
      rewrite last_cons. by destruct (last (qualifying_times lines)).
    + rewrite on_line_skip in IH by done. by apply IH.
  - apply IH; [|done]. by apply armed_others.
Qed.

Lemma listens_idle late lines L L' :
  listens lines L L' ->
  forall t0 rest,
    idle late t0 L ->
    qualifying_times lines = t0 :: rest ->
    close_together 2500 t0 rest ->
    armed late L' (default t0 (last rest)) (triggered late L).
Proof.
  induction 1 as [L | now line lines L L' Hrun IH | lines L m' L' Hm _ IH];
    intros t0 rest HL Hq Hc.
  - discriminate.
  - rewrite qualifying_times_cons in Hq. simpl in Hq.
    destruct (qualifies line) eqn:Hl.
    + injection Hq as <- <-.
      eapply listens_armed; [exact Hrun| |done]. by apply on_line_idle.
    + rewrite on_line_skip in IH by done. by eapply IH.
  - destruct (idle_others _ _ _ _ Hm HL) as [HL' <-]. by eapply IH.
Qed.

Lemma firings_none late (old : list Timer) :
  Forall (fun T => fires_at late T = None) old -> firings late old = [].
Proof.
  induction 1 as [|T old HT _ IH]; [reflexivity|].
  unfold firings in *. simpl. by rewrite HT.
Qed.

(** C8. A burst of one or more qualifying lines read while monitoring is
    enabled and no debounce timer is pending, each less than 2500 ms after
    the previous qualifying one, then silence: the listener's timers trigger
    exactly one more run, the Auto pass [perform_check Auto], 2500 ms after
    the last qualifying line (every qualifying line cancels the pending
    timer and starts a new one). What earlier bursts triggered is as it
    was, and the outcome does not depend on who wins a race between a
    [cancel()] and a timer at its deadline. Lines that do not qualify may
    arrive in between, and other threads, the passes of earlier timers
    among them, may run meanwhile, as long as monitoring stays enabled and
    nothing raises. *)
Theorem debounce_collapse late lines L L' t0 rest :
  idle late t0 L ->
  qualifying_times lines = t0 :: rest ->
  close_together 2500 t0 rest ->
  listens lines L L' ->
  triggered late L' =
    triggered late L ++
    [((default t0 (last rest) + 2500)%Z, perform_check Auto)].
Proof.
  intros HL Hq Hc Hrun.
  destruct (listens_idle late lines L L' Hrun t0 rest HL Hq Hc)
    as (old & Ht & Hold & _).
  unfold triggered at 1. rewrite Ht, firings_app, Hold. reflexivity.
Qed.

Lemma debounce_collapse_witness :
  let first := [(0, "eth0: connected"); (400, "wlan0: scanning");
                (500, "vpn connection lost")]%Z in
  let second := [(6000, "wlan0: scanning");
                 (7000, "Connectivity is now 'limited'");
                 (7900, "tun0: device removed");
                 (9000, "tun0: unavailable")]%Z in
  let L0 := mkListener (mkMach fresh_worker host_wg0_online []) [] None true in
  let L := listen first L0 in
  triggered true (listen second L) =
    triggered true L ++
    [((default 7000 (last [7900; 9000]) + 2500)%Z, perform_check Auto)].
Proof.
  apply (debounce_collapse true
           [(6000, "wlan0: scanning");
            (7000, "Connectivity is now 'limited'");
            (7900, "tun0: device removed");
            (9000, "tun0: unavailable")]%Z
           (listen [(0, "eth0: connected"); (400, "wlan0: scanning");
                    (500, "vpn connection lost")]%Z
                   (mkListener (mkMach fresh_worker host_wg0_online [])
                               [] None true))
           _ 7000%Z [7900; 9000]%Z).
  - unfold idle, quiet. vm_compute. repeat split. constructor.
  - vm_compute. reflexivity.
  - simpl. lia.
  - apply listen_listens.
Defined.

(** A second qualifying line read exactly 2500 ms after the first comes
    when the first timer has reached its deadline. When the cancel loses
    the race against the timer thread, both timers fire: the burst of two
    lines triggers two Auto passes, at 2500 ms and at 5000 ms. *)
Lemma debounce_gap_of_2500_triggers_twice :
  let lines := [(0, "vpn connection lost"); (2500, "tun0: device removed")]%Z in
  let L := mkListener (mkMach fresh_worker host_wg0_online []) [] None true in
  idle true 0 L /\
  qualifying_times lines = [0; 2500]%Z /\
  triggered true L = [] /\
  triggered true (listen lines L) =
    [(2500%Z, perform_check Auto); (5000%Z, perform_check Auto)].
Proof.
  split; [|split; [|split]].
  - unfold idle, quiet. simpl. repeat split. constructor.
  - vm_compute. reflexivity.
  - reflexivity.
  - reflexivity.
Qed.

(** ** Mutual exclusion of passes *)

(** A thread that runs alone does what [perform_check] does. *)
Lemma run_alone_perform_check src m :
  run_alone 7 src AtEntry m =
  (Finished (run (perform_check src) m).1, (run (perform_check src) m).2).
Proof.
  unfold perform_check. rewrite run_bind, run_get_worker. simpl.
  destruct (enabled (worker m)); simpl; [|reflexivity].
  rewrite run_bind.
  destruct (run mark_resolving m) as [[[]|e] m1]; simpl; [|reflexivity].
  rewrite run_try_except. unfold check_body. rewrite run_bind.
  destruct (run probe m1) as [[[v o]|e] m2]; simpl.
  - destruct (run (conclude src v o) m2) as [[[]|e] m3]; simpl; [reflexivity|].
    by destruct (run (on_failure e) m3).
  - by destruct (run (on_failure e) m2).
Qed.

Lemma replay_app h1 : forall holder h2,
  replay holder (h1 ++ h2) =
  match replay holder h1 with
  | Some holder' => replay holder' h2
  | None => None
  end.
Proof.
  induction h1 as [|[i st] h1 IH]; intros holder h2; [reflexivity|].
  simpl. destruct st; try (destruct (bool_decide _); [apply IH|reflexivity]).
  destruct holder; [reflexivity|apply IH].
Qed.

Lemma thread_step_in_cs src p m p' m' :
  thread_step src p m = (p', m') ->
  in_cs p = true -> stage_of p <> Some Release -> in_cs p' = true.
Proof.
  intros Hs Hcs Hrel. destruct p; simpl in *; try discriminate.
  - destruct (run mark_resolving m) as [[[]|e] m1]; by inversion Hs.
  - destruct (run probe m) as [[[v o]|e] m1]; by inversion Hs.
  - destruct (run (conclude src active_vpn is_online) m) as [[[]|e] m1];
      by inversion Hs.
  - destruct (run (on_failure e) m) as [r m1]; by inversion Hs.
  - congruence.
Qed.

Lemma initial_lock_inv s : initial s -> lock_inv s.
Proof.
  intros (Hl & Hh & Ht). repeat split.
  - intros i t Hi Hcs. rewrite Forall_forall in Ht.
    assert (Hin : t ∈ threads s) by (eapply list_elem_of_lookup_2; eauto).
    rewrite (Ht _ Hin) in Hcs. discriminate.
  - intros i Hi. congruence.
  - by rewrite Hh, Hl.
Qed.

Lemma step_lock_inv s s' : step s s' -> lock_inv s -> lock_inv s'.
Proof.
  intros Hstep (Ha & Hb & Hc).
  destruct Hstep as [s i t p' m' Hi Hfin Hguard Hts | s src | s m' Hout].
  - (* a thread moves *)
    assert (Hlen : i < length (threads s)) by (eapply lookup_lt_Some; eauto).
    destruct (in_cs (pc t)) eqn:Hcs.
    + (* inside the critical section: it holds the lock *)
      pose proof (Ha i t Hi Hcs) as Hlock.
      destruct (decide (stage_of (pc t) = Some Release)) as [Hrel|Hrel].
      * (* release *)
        destruct (pc t) eqn:Hpc; try discriminate. simpl in Hts.
        injection Hts as <- <-. unfold lock_inv, logged. simpl.
        repeat split.
        -- intros j tj Hj Hcsj.
           apply list_lookup_insert_Some in Hj as [(<- & <- & _) | (Hne & Hj)].
           ++ discriminate.
           ++ pose proof (Ha j tj Hj Hcsj). congruence.
        -- discriminate.
        -- rewrite replay_app, Hc, Hlock. simpl.
           by rewrite bool_decide_eq_true_2.
      * (* a step of the pass *)
        pose proof (thread_step_in_cs _ _ _ _ _ Hts Hcs Hrel) as Hcs'.
        assert (Hla : lock_after i (pc t) (lock s) = lock s)
          by (destruct (pc t); simpl in *; congruence).
        unfold lock_inv. simpl. rewrite Hla. repeat split.
        -- intros j tj Hj Hcsj.
           apply list_lookup_insert_Some in Hj as [(<- & <- & _) | (Hne & Hj)];
             [done|by eapply Ha].
        -- intros j Hj. rewrite Hlock in Hj. injection Hj as <-.
           eexists. split; [by apply list_lookup_insert_eq|done].
        -- rewrite replay_app, Hc, Hlock. unfold logged.
           destruct (pc t); simpl in *; try discriminate; try congruence;
             by rewrite bool_decide_eq_true_2.
    + (* outside the critical section *)
      destruct (pc t) eqn:Hpc; try discriminate.
      * (* line 87 *)
        assert (Hp' : in_cs p' = false).
        { simpl in Hts. destruct (enabled (worker (shared s)));
            by injection Hts as <- <-. }
        unfold lock_inv, logged. simpl. rewrite app_nil_r. repeat split; [| |done].
        -- intros j tj Hj Hcsj.
           apply list_lookup_insert_Some in Hj as [(<- & <- & _) | (Hne & Hj)];
             [simpl in Hcsj; congruence|by eapply Ha].
        -- intros j Hj. destruct (Hb j Hj) as (tj & Htj & Hcsj).
           exists tj. split; [|done].
           rewrite list_lookup_insert_ne; [done|].
           intros ->. rewrite Hi in Htj. injection Htj as <-.
           rewrite Hpc in Hcsj. discriminate.
      * (* acquire *)
        specialize (Hguard eq_refl). simpl in Hts. injection Hts as <- <-.
        unfold lock_inv, logged. simpl. repeat split.
        -- intros j tj Hj Hcsj.
           apply list_lookup_insert_Some in Hj as [(<- & <- & _) | (Hne & Hj)];
             [done|]. pose proof (Ha j tj Hj Hcsj). congruence.
        -- intros j [= <-]. eexists. split; [by apply list_lookup_insert_eq|done].
        -- by rewrite replay_app, Hc, Hguard.
  - (* a new trigger *)
    unfold lock_inv. simpl. repeat split; [| |done].
    + intros j tj Hj Hcsj.
      apply lookup_app_Some in Hj as [Hj | (Hge & Hj)]; [by eapply Ha|].
      apply list_lookup_singleton_Some in Hj as [_ <-]. discriminate.
    + intros j Hj. destruct (Hb j Hj) as (tj & Htj & Hcsj).
      exists tj. split; [|done]. by apply lookup_app_l_Some.
  - (* the user, the listener or the world *)
    exact (conj Ha (conj Hb Hc)).
Qed.

Lemma reachable_lock_inv s : reachable s -> lock_inv s.
Proof.
  intros (s0 & H0 & Hr). apply initial_lock_inv in H0.
  induction Hr as [|x y z Hxy _ IH]; [done|].
  apply IH. by eapply step_lock_inv.
Qed.

(** C9. Whatever triggers start passes, and whatever the user, the listener
    and the world do meanwhile, at most one thread is inside the critical
    section of [perform_check] in any reachable state, and the log of
    critical-section steps is serial: between the acquisition of the lock by
    a pass and its release, no step of another pass occurs. *)
Theorem passes_are_serialized s :
  reachable s ->
  (forall i j ti tj,
     threads s !! i = Some ti -> threads s !! j = Some tj ->
     in_cs (pc ti) = true -> in_cs (pc tj) = true -> i = j) /\
  serial (history s).
Proof.
  intros Hr. destruct (reachable_lock_inv s Hr) as (Ha & _ & Hc). split.
  - intros i j ti tj Hi Hj Hci Hcj.
    pose proof (Ha i ti Hi Hci). pose proof (Ha j tj Hj Hcj). congruence.
  - unfold serial. by rewrite Hc.
Qed.

Lemma passes_are_serialized_witness :
  (forall i j ti tj,
     threads two_triggers_locked !! i = Some ti ->
     threads two_triggers_locked !! j = Some tj ->
     in_cs (pc ti) = true -> in_cs (pc tj) = true -> i = j) /\
  serial (history two_triggers_locked).
Proof.
  apply (passes_are_serialized two_triggers_locked).
  exists two_triggers_start. split.
  - unfold initial. simpl. repeat split. repeat constructor.
  - apply (rtc_l _ _ (mkSys (mkMach fresh_worker host_wg0_online []) None
                            [mkThread Init AtLock; mkThread Manual AtEntry] [])).
    { exact (step_thread two_triggers_start 0 (mkThread Init AtEntry) AtLock
                         (mkMach fresh_worker host_wg0_online [])
                         eq_refl eq_refl (fun _ => eq_refl) eq_refl). }
    apply rtc_once.
    exact (step_thread (mkSys (mkMach fresh_worker host_wg0_online []) None
                              [mkThread Init AtLock; mkThread Manual AtEntry] [])
                       0 (mkThread Init AtLock) AtMark
                       (mkMach fresh_worker host_wg0_online [])
                       eq_refl eq_refl (fun _ => eq_refl) eq_refl).
Defined.

(** ** Further properties of the worker *)

Lemma get_public_ip_run m :
  quiet m ->
  exists m',
    run _get_public_ip m =
      (Ok match ip_outcome (world m) with
          | inl body => Some (Text.strip body)
          | inr _ => None
          end, m') /\ quiet m' /\
    worker m' = counted (worker m) /\
    trace m' = trace m ++
      [LogAdded "API CALL: Fetching Public IP (icanhazip.com)";
       ApiCalled (api_count (worker m) + 1); ip_request] ++
      match ip_outcome (world m) with
      | inl _ => []
      | inr e => [LogAdded ("API ERROR: IP fetch failed: " +:+ e)]
      end.
Proof.
  intros Hq. unfold _get_public_ip, emit_log_added.
  rewrite run_bind, run_prim_quiet by done.
  assert (Hq1 : quiet (record (LogAdded "API CALL: Fetching Public IP (icanhazip.com)")
                              (pop_fault m))) by solve_quiet.
  destruct (track_api_quiet _ Hq1) as (m2 & E2 & Hq2 & W2 & T2 & _ & I2).
  rewrite run_bind, E2, run_bind. unfold urlopen_ip at 1. unfold run at 1.
  unfold ip_outcome. simpl in I2. rewrite I2.
  destruct (default (inr "no response") (head (ip_echo (world m)))) as [body|e].
  - rewrite run_ret. eexists. split; [reflexivity|].
    split; [solve_quiet|]. simpl. rewrite W2, T2. simpl.
    rewrite <- !app_assoc. by repeat split.
  - rewrite run_bind, run_prim_quiet by solve_quiet. rewrite run_ret.
    eexists. split; [reflexivity|].
    split; [solve_quiet|]. simpl. rewrite W2, T2. simpl.
    rewrite <- !app_assoc. by repeat split.
Qed.

(** X2. As long as no emission raises, a failed request does not make
    [_get_public_ip] raise: it returns the stripped body on a response and
    None on an exception of the request, which it reports in an API ERROR
    log line; either way it makes one request with a 5000 ms time-out and
    counts one probe. (The emissions themselves, the API ERROR line
    included, are not guarded.) *)
Theorem get_public_ip_outcome m :
  quiet m ->
  exists r m',
    run _get_public_ip m = (Ok r, m') /\
    api_count (worker m') = api_count (worker m) + 1 /\
    requests (emitted m m') = [HttpGet ip_url 5000] /\
    match ip_outcome (world m) with
    | inl body =>
        r = Some (Text.strip body) /\
        List.filter is_log (emitted m m') =
          [LogAdded "API CALL: Fetching Public IP (icanhazip.com)"]
    | inr e =>
        r = None /\
        List.filter is_log (emitted m m') =
          [LogAdded "API CALL: Fetching Public IP (icanhazip.com)";
           LogAdded ("API ERROR: IP fetch failed: " +:+ e)]
    end.
Proof.
  intros Hq. destruct (get_public_ip_run m Hq) as (m' & E & _ & W & T).
  eexists _, m'. split; [exact E|]. split; [by rewrite W|].
  rewrite (emitted_app _ _ _ T).
  destruct (ip_outcome (world m)); by repeat split.
Qed.

Lemma get_public_ip_outcome_witness :
  let m := mkMach fresh_worker host_no_vpn [] in
  exists r m',
    run _get_public_ip m = (Ok r, m') /\
    api_count (worker m') = api_count (worker m) + 1 /\
    requests (emitted m m') = [HttpGet ip_url 5000] /\
    match ip_outcome (world m) with
    | inl body =>
        r = Some (Text.strip body) /\
        List.filter is_log (emitted m m') =
          [LogAdded "API CALL: Fetching Public IP (icanhazip.com)"]
    | inr e =>
        r = None /\
        List.filter is_log (emitted m m') =
          [LogAdded "API CALL: Fetching Public IP (icanhazip.com)";
           LogAdded ("API ERROR: IP fetch failed: " +:+ e)]
    end.
Proof.
  apply (get_public_ip_outcome (mkMach fresh_worker host_no_vpn [])).
  unfold quiet. simpl. constructor.
Defined.

Lemma ip_suffix_run c src o m :
  quiet m ->
  let fetch := bool_decide (c = blue) || (bool_decide (src = Manual) && o) in
  exists m',
    run (ip_suffix_for c src o) m =
      (Ok (if fetch then
             match ip_outcome (world m) with
             | inl body =>
                 if Text.truthy (Text.strip body)
                 then " (IP: " +:+ Text.strip body +:+ ")" else ""
             | inr _ => ""
             end
           else ""), m') /\ quiet m' /\
    worker m' = (if fetch then counted (worker m) else worker m) /\
    trace m' = trace m ++
      (if fetch
       then [LogAdded "API CALL: Fetching Public IP (icanhazip.com)";
             ApiCalled (api_count (worker m) + 1); ip_request] ++
            match ip_outcome (world m) with
            | inl _ => []
            | inr e => [LogAdded ("API ERROR: IP fetch failed: " +:+ e)]
            end
       else []).
Proof.
  intros Hq fetch. unfold ip_suffix_for. fold fetch. destruct fetch.
  - destruct (get_public_ip_run _ Hq) as (m' & E & Hq' & W & T).
    rewrite run_bind, E. exists m'. split; [|done].
    destruct (ip_outcome (world m)) as [body|e];
      [destruct (Text.truthy (Text.strip body))|]; by rewrite run_ret.
  - rewrite run_ret. exists m. rewrite app_nil_r. by repeat split.
Qed.

Lemma probe_ip_echo m :
  quiet m -> ip_echo (world (run probe m).2) = ip_echo (world m).
Proof.
  intros Hq. unfold probe. rewrite run_bind.
  destruct (scan_run m) as (files & Es & _). rewrite Es.
  assert (Hq1 : quiet (mkMach (worker m) (world m)
                              (trace m ++ ListDir net_dir :: files)))
    by solve_quiet.
  destruct (has_internet_quiet _ Hq1) as (m2 & E2 & _ & _ & _ & I2).
  rewrite run_bind, E2, run_ret. simpl. exact I2.
Qed.

(** Lines 103-128 once the pass has marked the worker as resolving. *)
Lemma conclude_run src v o m :
  quiet m ->
  is_resolving (worker m) = true ->
  let c := (classify v o).1 in
  let label := (classify v o).2 in
  let changed := negb (bool_decide (Some c = last_status (worker m))) in
  let fetch := bool_decide (c = blue) || (bool_decide (src = Manual) && o) in
  let notify := bool_decide (c = blue) && (changed || forced src) in
  exists m',
    run (conclude src v o) m = (Ok tt, m') /\ quiet m' /\
    worker m' = mkWorker (enabled (worker m)) (Some c) false
                         (api_count (worker m) + (if fetch then 1 else 0)) /\
    trace m' = trace m ++ [StatusChanged c] ++
      (if fetch
       then [LogAdded "API CALL: Fetching Public IP (icanhazip.com)";
             ApiCalled (api_count (worker m) + 1); ip_request] ++
            match ip_outcome (world m) with
            | inl _ => []
            | inr e => [LogAdded ("API ERROR: IP fetch failed: " +:+ e)]
            end
       else []) ++
      [LogAdded ("STATUS: " +:+ label +:+ " [" +:+ source_str src +:+ "]" +:+
                 (if fetch then
                    match ip_outcome (world m) with
                    | inl body =>
                        if Text.truthy (Text.strip body)
                        then " (IP: " +:+ Text.strip body +:+ ")" else ""
                    | inr _ => ""
                    end
                  else ""))] ++
      (if notify
       then [NotificationTimer 200 dropped_title dropped_message true]
       else []).
Proof.
  intros Hq Hr c label changed fetch notify. unfold conclude.
  subst c label. destruct (classify v o) as [c label]. simpl in *.
  rewrite run_bind, run_get_worker. fold changed. fold notify.
  rewrite Hr, orb_true_r. simpl.
  unfold set_last_status, set_is_resolving, emit_status_changed,
    emit_log_added, start_notification_timer.
  rewrite run_bind. exec.
  match goal with |- context [run (ip_suffix_for c src o) ?m1] =>
    assert (Hq1 : quiet m1) by solve_quiet;
    destruct (ip_suffix_run c src o m1 Hq1) as (m2 & E2 & Hq2 & W2 & T2)
  end.
  rewrite E2. exec. fold fetch in W2, T2. unfold ip_outcome in *.
  simpl in W2, T2. simpl.
  destruct notify.
  - exec. eexists. split; [reflexivity|]. split; [solve_quiet|].
    simpl. rewrite W2, T2.
    split; [destruct fetch; simpl; f_equal; lia|].
    rewrite <- !app_assoc. reflexivity.
  - exec. eexists. split; [reflexivity|]. split; [solve_quiet|].
    simpl. rewrite W2, T2.
    split; [destruct fetch; simpl; f_equal; lia|].
    rewrite <- !app_assoc. simpl. by rewrite ?app_nil_r.
Qed.

(** The complete trace of a pass on an enabled worker when nothing raises,
    up to the files the scan reads and the number of connectivity
    attempts. *)
Lemma pass_run src m v o :
  enabled (worker m) = true ->
  quiet m ->
  (run probe m).1 = Ok (v, o) ->
  let c := (classify v o).1 in
  let label := (classify v o).2 in
  let changed := negb (bool_decide (Some c = last_status (worker m))) in
  let fetch := bool_decide (c = blue) || (bool_decide (src = Manual) && o) in
  let notify := bool_decide (c = blue) && (changed || forced src) in
  exists m' files evs,
    run (perform_check src) m = (Ok tt, m') /\ quiet m' /\
    worker m' = mkWorker true (Some c) false
                         (api_count (worker m) + 1 + (if fetch then 1 else 0)) /\
    trace m' = trace m ++
      (if is_resolving (worker m) then [] else [StatusChanged yellow]) ++
      files ++
      [LogAdded "API CALL: Checking connectivity (google.com)";
       ApiCalled (api_count (worker m) + 1)] ++
      evs ++
      [StatusChanged c] ++
      (if fetch
       then [LogAdded "API CALL: Fetching Public IP (icanhazip.com)";
             ApiCalled (api_count (worker m) + 1 + 1); ip_request] ++
            match ip_outcome (world m) with
            | inl _ => []
            | inr e => [LogAdded ("API ERROR: IP fetch failed: " +:+ e)]
            end
       else []) ++
      [LogAdded ("STATUS: " +:+ label +:+ " [" +:+ source_str src +:+ "]" +:+
                 (if fetch then
                    match ip_outcome (world m) with
                    | inl body =>
                        if Text.truthy (Text.strip body)
                        then " (IP: " +:+ Text.strip body +:+ ")" else ""
                    | inr _ => ""
                    end
                  else ""))] ++
      (if notify
       then [NotificationTimer 200 dropped_title dropped_message true]
       else []) /\
    Forall (fun ev => is_file_event ev = true) files /\
    (evs = [connectivity_attempt] \/
     evs = [connectivity_attempt; Sleep 1200; connectivity_attempt] \/
     evs = [connectivity_attempt; Sleep 1200; connectivity_attempt;
            Sleep 1200; connectivity_attempt]).
Proof.
  intros Hen Hq Hp c label changed fetch notify.
  unfold perform_check. rewrite run_bind, run_get_worker, Hen. simpl.
  destruct (mark_resolving_quiet m Hq) as (m1 & E1 & Hq1 & W1 & T1 & Env1 & I1).
  rewrite run_bind, E1, run_try_except. unfold check_body. rewrite run_bind.
  destruct (probe_quiet m1 Hq1)
    as (v1 & o1 & m2 & files & evs & E2 & Hq2 & W2 & T2 & Ff & Hevs & Hdet).
  specialize (Hdet m Hq (same_probe_env_sym _ _ Env1)).
  rewrite Hp in Hdet. injection Hdet as <- <-.
  pose proof (probe_ip_echo m1 Hq1) as I2. rewrite E2 in I2. simpl in I2.
  rewrite E2. simpl.
  assert (Hr2 : is_resolving (worker m2) = true) by (by rewrite W2, W1).
  destruct (conclude_run src v o m2 Hq2 Hr2) as (m3 & E3 & Hq3 & W3 & T3).
  rewrite E3. unfold ip_outcome in *. rewrite I2, I1 in T3.
  rewrite W2, W1 in W3, T3. simpl in W3, T3.
  exists m3, files, evs.
  split; [reflexivity|]. split; [done|].
  split; [by rewrite W3, Hen|].
  split; [|done].
  rewrite T3, T2, T1, W1. simpl. rewrite <- !app_assoc. reflexivity.
Qed.

(** X1. In every enabled pass that raises nothing, the "VPN DROPPED"
    notification is requested exactly when the classification is Insecure
    and either it differs from the previous one or the source is not Auto;
    it is then requested once, as the last action of the pass, with a
    200 ms delay and the critical flag. *)
Theorem notification_condition src m v o :
  enabled (worker m) = true ->
  quiet m ->
  (run probe m).1 = Ok (v, o) ->
  exists m' before,
    run (perform_check src) m = (Ok tt, m') /\
    Forall (fun ev => is_notification ev = false) before /\
    emitted m m' =
      before ++
      (if bool_decide (classify v o = (blue, "Insecure"))
          && (negb (bool_decide (last_status (worker m) = Some blue))
              || negb (bool_decide (src = Auto)))
       then [NotificationTimer 200 dropped_title dropped_message true]
       else []).
Proof.
  intros Hen Hq Hp.
  destruct (pass_run src m v o Hen Hq Hp)
    as (m' & files & evs & E & _ & _ & T & Ff & Hevs).
  eexists m', _. split; [exact E|].
  rewrite (emitted_app _ _ _ T). rewrite !app_assoc.
  split; [|f_equal].
  - rewrite !Forall_app.
    assert (Hfile : forall ev, is_file_event ev = true -> is_notification ev = false)
      by (by intros []).
    repeat split.
    + destruct (is_resolving (worker m)); by repeat constructor.
    + by eapply Forall_impl.
    + by repeat constructor.
    + destruct Hevs as [-> | [-> | ->]]; by repeat constructor.
    + by repeat constructor.
    + destruct (_ || _); [|constructor].
      destruct (ip_outcome (world m)); by repeat constructor.
    + by repeat constructor.
  - destruct v, o, src, (last_status (worker m)) as [[]|]; reflexivity.
Qed.

Lemma notification_condition_witness :
  let m := mkMach fresh_worker host_no_vpn [] in
  exists m' before,
    run (perform_check Init) m = (Ok tt, m') /\
    Forall (fun ev => is_notification ev = false) before /\
    emitted m m' =
      before ++
      (if bool_decide (classify false true = (blue, "Insecure"))
          && (negb (bool_decide (last_status (worker m) = Some blue))
              || negb (bool_decide (Init = Auto)))
       then [NotificationTimer 200 dropped_title dropped_message true]
       else []).
Proof.
  apply (notification_condition Init (mkMach fresh_worker host_no_vpn [])
                                false true).
  - reflexivity.
  - unfold quiet. simpl. constructor.
  - vm_compute. reflexivity.
Defined.

(** X3. In every enabled pass that raises nothing, the last log line is the
    STATUS line "STATUS: <label> [<source>]"; it ends with " (IP: <address>)"
    exactly when the pass requested the IP-echo endpoint and got a body that
    is not blank, the address being the stripped body. A failed or blank
    answer leaves the line without suffix. *)
Theorem status_line src m v o :
  enabled (worker m) = true ->
  quiet m ->
  (run probe m).1 = Ok (v, o) ->
  exists m',
    run (perform_check src) m = (Ok tt, m') /\
    last (List.filter is_log (emitted m m')) =
      Some (LogAdded
              ("STATUS: " +:+ (classify v o).2 +:+ " [" +:+ source_str src +:+ "]"
               +:+
               (if bool_decide ((classify v o).1 = blue)
                   || (bool_decide (src = Manual) && o)
                then
                  match ip_outcome (world m) with
                  | inl body =>
                      if Text.truthy (Text.strip body)
                      then " (IP: " +:+ Text.strip body +:+ ")" else ""
                  | inr _ => ""
                  end
                else ""))).
Proof.
  intros Hen Hq Hp.
  destruct (pass_run src m v o Hen Hq Hp)
    as (m' & files & evs & E & _ & _ & T & Ff & Hevs).
  exists m'. split; [exact E|].
  rewrite (emitted_app _ _ _ T). rewrite !app_assoc.
  rewrite List.filter_app.
  replace (List.filter is_log
             (if bool_decide ((classify v o).1 = blue)
                 && (negb (bool_decide (Some (classify v o).1 = last_status (worker m)))
                     || forced src)
              then [NotificationTimer 200 dropped_title dropped_message true]
              else [])) with (@nil Event)
    by (match goal with |- context [if ?b then _ else _] => destruct b end;
        reflexivity).
  rewrite app_nil_r, List.filter_app. simpl. apply last_snoc.
Qed.

Lemma status_line_witness :
  let m := mkMach fresh_worker host_wg0_online [] in
  exists m',
    run (perform_check Manual) m = (Ok tt, m') /\
    last (List.filter is_log (emitted m m')) =
      Some (LogAdded
              ("STATUS: " +:+ (classify true true).2 +:+ " [" +:+ source_str Manual
               +:+ "]" +:+
               (if bool_decide ((classify true true).1 = blue)
                   || (bool_decide (Manual = Manual) && true)
                then
                  match ip_outcome (world m) with
                  | inl body =>
                      if Text.truthy (Text.strip body)
                      then " (IP: " +:+ Text.strip body +:+ ")" else ""
                  | inr _ => ""
                  end
                else ""))).
Proof.
  apply (status_line Manual (mkMach fresh_worker host_wg0_online []) true true).
  - reflexivity.
  - unfold quiet. simpl. constructor.
  - vm_compute. reflexivity.
Defined.

(** X4. The transient status of lines 89-91 is emitted outside the [try]:
    when that emission raises, the exception leaves [perform_check], nothing
    is probed or logged, and the worker is left as it was (in particular
    [is_resolving] stays false). *)
Theorem resolving_emission_failure_propagates src m e :
  enabled (worker m) = true ->
  is_resolving (worker m) = false ->
  next_fault m = Some e ->
  exists m',
    run (perform_check src) m = (Raise e, m') /\
    worker m' = worker m /\ trace m' = trace m.
Proof.
  intros Hen Hr Hf. unfold perform_check.
  rewrite run_bind, run_get_worker, Hen. simpl.
  unfold mark_resolving, emit_status_changed.
  rewrite !run_bind, run_get_worker, Hr. simpl.
  rewrite run_bind. unfold run at 1. unfold prim. rewrite Hf.
  eexists. split; [reflexivity|]. split; reflexivity.
Qed.

Lemma resolving_emission_failure_propagates_witness :
  let m := mkMach fresh_worker
                  (with_faults [Some "signal receiver is gone"] host_wg0_online)
                  [] in
  exists m',
    run (perform_check Init) m = (Raise "signal receiver is gone", m') /\
    worker m' = worker m /\ trace m' = trace m.
Proof.
  apply (resolving_emission_failure_propagates Init
           (mkMach fresh_worker
                   (with_faults [Some "signal receiver is gone"] host_wg0_online)
                   [])); reflexivity.
Defined.

(** X5. The handler of the outer [try] is not itself guarded: when its log
    emission raises too, that second exception leaves [perform_check], no
    CRITICAL ERROR line and no Offline status are emitted, and
    [is_resolving] keeps the value the failed body left. *)
Theorem handler_failure_propagates src m0 m1 m2 e e2 :
  enabled (worker m0) = true ->
  run mark_resolving m0 = (Ok tt, m1) ->
  run (check_body src) m1 = (Raise e, m2) ->
  next_fault m2 = Some e2 ->
  exists m3,
    run (perform_check src) m0 = (Raise e2, m3) /\
    worker m3 = worker m2 /\ trace m3 = trace m2.
Proof.
  intros Hen E1 E2 Hf. unfold perform_check.
  rewrite run_bind, run_get_worker, Hen. simpl.
  rewrite run_bind, E1, run_try_except, E2.
  unfold on_failure, emit_log_added.
  rewrite run_bind. unfold run at 1. unfold prim. rewrite Hf.
  eexists. split; [reflexivity|]. split; reflexivity.
Qed.

Lemma handler_failure_propagates_witness :
  let m0 := mkMach (mkWorker true (Some green) true 0)
                   (with_faults [Some "first"; Some "second"] host_wg0_online)
                   [] in
  let m1 := (run mark_resolving m0).2 in
  let m2 := (run (check_body Auto) m1).2 in
  exists m3,
    run (perform_check Auto) m0 = (Raise "second", m3) /\
    worker m3 = worker m2 /\ trace m3 = trace m2.
Proof.
  apply (handler_failure_propagates Auto
           (mkMach (mkWorker true (Some green) true 0)
                   (with_faults [Some "first"; Some "second"] host_wg0_online)
                   [])
           (run mark_resolving
                (mkMach (mkWorker true (Some green) true 0)
                        (with_faults [Some "first"; Some "second"] host_wg0_online)
                        [])).2
           (run (check_body Auto)
                (run mark_resolving
                     (mkMach (mkWorker true (Some green) true 0)
                             (with_faults [Some "first"; Some "second"]
                                          host_wg0_online)
                             [])).2).2
           "first" "second").
  - reflexivity.
  - vm_compute. reflexivity.
  - vm_compute. reflexivity.
  - vm_compute. reflexivity.
Defined.

Lemma any_active_order ifaces m :
  run (any_active ifaces) m =
    (Ok (existsb (is_up (world m)) ifaces),
     mkMach (worker m) (world m)
            (trace m ++ map (fun i => ReadFile (operstate_path i))
                            (read_order (world m) ifaces))).
Proof.
  revert m. induction ifaces as [|i rest IH]; intros m.
  - simpl. rewrite run_ret, app_nil_r. by destruct m.
  - simpl. rewrite run_bind. unfold _is_interface_active at 1. unfold run at 1.
    fold (is_up (world m) i). destruct (is_up (world m) i).
    + by rewrite run_ret.
    + rewrite IH. simpl. by rewrite <- app_assoc.
Qed.

Lemma read_order_prefix w ifaces : read_order w ifaces `prefix_of` ifaces.
Proof.
  induction ifaces as [|i rest IH]; [done|]. simpl.
  destruct (is_up w i); [|by apply prefix_cons].
  exists rest. reflexivity.
Qed.

Lemma read_order_last w ifaces pre i :
  read_order w ifaces = pre ++ [i] ->
  Forall (fun j => is_up w j = false) pre /\
  (is_up w i = true \/ pre ++ [i] = ifaces).
Proof.
  revert pre. induction ifaces as [|j rest IH]; intros pre H.
  - by destruct pre.
  - simpl in H. destruct (is_up w j) eqn:Hj.
    + destruct pre as [|p pre]; simpl in H.
      * injection H as ->. split; [constructor|by left].
      * injection H as -> H. by destruct pre.
    + destruct pre as [|p pre]; simpl in H.
      * injection H as -> H. destruct rest; [|discriminate].
        split; [constructor|by right].
      * injection H as -> H. destruct (IH pre H) as [F [Hi|Hi]].
        -- split; [by constructor|by left].
        -- split; [by constructor|right; simpl; by rewrite Hi].
Qed.

(** X6. The scan lists the directory once and then opens operstate files of
    VPN-candidate interfaces only, in listing order, stopping at the first
    one that is up: every file opened before the last one belongs to an
    interface that is not up, and the last one opened is up unless all
    candidates were read. The result is the state of the last one read. *)
Theorem scan_reads_until_first_up m :
  exists b m' reads,
    run scan m = (Ok b, m') /\
    emitted m m' =
      ListDir net_dir :: map (fun i => ReadFile (operstate_path i)) reads /\
    reads `prefix_of` vpn_ifaces (world m) /\
    (reads = [] -> vpn_ifaces (world m) = [] /\ b = false) /\
    (forall pre i,
       reads = pre ++ [i] ->
       Forall (fun j => is_up (world m) j = false) pre /\
       b = is_up (world m) i /\
       (b = false -> reads = vpn_ifaces (world m))).
Proof.
  unfold scan. rewrite run_bind. unfold list_interfaces at 1. unfold run at 1.
  fold (listing (world m)). fold (vpn_ifaces (world m)).
  destruct (vpn_ifaces (world m)) as [|i0 rest] eqn:Ec.
  - rewrite run_ret. eexists false, _, []. split; [reflexivity|].
    split; [by apply emitted_app|]. split; [done|]. split; [done|].
    intros pre i H. by destruct pre.
  - rewrite any_active_order.
    eexists _, _, (read_order (world m) (i0 :: rest)).
    split; [reflexivity|]. simpl trace. simpl world.
    split; [apply emitted_app; by rewrite <- app_assoc|].
    split; [apply read_order_prefix|].
    split; [discriminate|].
    intros pre i H. destruct (read_order_last _ _ _ _ H) as [F Hl].
    split; [exact F|].
    assert (Hex : existsb (is_up (world m)) (i0 :: rest) = is_up (world m) i).
    { destruct Hl as [Hi|Hi].
      - rewrite Hi. apply existsb_exists. exists i. split; [|done].
        pose proof (read_order_prefix (world m) (i0 :: rest)) as [k Hk].
        rewrite Hk, H. apply in_or_app. left. apply in_or_app. right. by left.
      - rewrite <- Hi, existsb_app. simpl. rewrite orb_false_r.
        replace (existsb (is_up (world m)) pre) with false; [done|].
        symmetry. apply not_true_is_false. intros Hx.
        apply existsb_exists in Hx as (j & Hj & Hup).
        rewrite Forall_forall in F. apply list_elem_of_In in Hj.
        rewrite (F j Hj) in Hup. discriminate. }
    split; [exact Hex|].
    intros Hb. destruct Hl as [Hi|Hi]; [|by rewrite H].
    rewrite Hex, Hi in Hb. discriminate.
Qed.

(** ** Further properties of the listener *)

Lemma lower_char_idem c : Text.lower_char (Text.lower_char c) = Text.lower_char c.
Proof. destruct c as [[] [] [] [] [] [] [] []]; reflexivity. Qed.

Lemma is_space_lower_char c : Text.is_space (Text.lower_char c) = Text.is_space c.
Proof. destruct c as [[] [] [] [] [] [] [] []]; reflexivity. Qed.

Lemma lower_empty s : String.eqb (Text.lower s) "" = String.eqb s "".
Proof. by destruct s. Qed.

Lemma lstrip_lower s : Text.lstrip (Text.lower s) = Text.lower (Text.lstrip s).
Proof.
  induction s as [|c s IH]; [reflexivity|]. simpl.
  rewrite is_space_lower_char. by destruct (Text.is_space c).
Qed.

Lemma rstrip_lower s : Text.rstrip (Text.lower s) = Text.lower (Text.rstrip s).
Proof.
  induction s as [|c s IH]; [reflexivity|]. simpl.
  rewrite is_space_lower_char, IH, lower_empty.
  by destruct (Text.is_space c && String.eqb (Text.rstrip s) "").
Qed.

Lemma strip_lower s : Text.strip (Text.lower s) = Text.lower (Text.strip s).
Proof. unfold Text.strip. by rewrite lstrip_lower, rstrip_lower. Qed.

Lemma lower_idem s : Text.lower (Text.lower s) = Text.lower s.
Proof.
  induction s as [|c s IH]; [reflexivity|]. simpl.
  by rewrite lower_char_idem, IH.
Qed.

(** X7. The keyword test of the listener ignores letter case: two lines
    that differ only in the case of their letters qualify alike. *)
Theorem qualifies_ignores_case a b :
  Text.lower a = Text.lower b -> qualifies a = qualifies b.
Proof.
  intros H. unfold qualifies.
  rewrite <- (lower_idem (Text.strip a)), <- (lower_idem (Text.strip b)).
  by rewrite <- !strip_lower, H.
Qed.

Lemma qualifies_ignores_case_witness :
  qualifies "Wg0: Disconnected" = qualifies "wg0: disCONNECTED".
Proof. apply qualifies_ignores_case. reflexivity. Defined.

Lemma on_line_disabled now line L :
  enabled (worker (mach L)) = false -> on_line now line L = L.
Proof.
  intros H. unfold on_line. rewrite H. by destruct (negb (alive L)).
Qed.

(** X8. While monitoring is disabled the listener reads its lines and does
    nothing else: whatever the lines, and whatever other threads do to the
    worker short of re-enabling it, no timer is created, cancelled or
    started, so no pass is triggered; left alone, the listener does not
    change at all. *)
Theorem listener_ignores_lines_when_disabled late lines L L' :
  enabled (worker (mach L)) = false ->
  listens lines L L' ->
  timers L' = timers L /\ _debounce_timer L' = _debounce_timer L /\
  triggered late L' = triggered late L /\ listen lines L = L.
Proof.
  intros Hen Hrun.
  assert (Hl : listen lines L = L).
  { clear Hrun. unfold listen. induction lines as [|tl lines IH]; [reflexivity|].
    simpl. by rewrite on_line_disabled. }
  assert (Ht : timers L' = timers L /\ _debounce_timer L' = _debounce_timer L).
  { clear Hl.
    induction Hrun as [L | now line lines L L' _ IH | lines L m' L' [He _] _ IH].
    - done.
    - rewrite on_line_disabled in IH by done. by apply IH.
    - apply IH. simpl. congruence. }
  destruct Ht as [Ht Hd]. unfold triggered. by rewrite Ht.
Qed.

Lemma listener_ignores_lines_when_disabled_witness :
  let L := mkListener (mkMach (mkWorker false (Some green) false 3)
                              host_wg0_online [])
                      [mkTimer 2500 trigger_check (Some 0%Z) (Some 100%Z)] (Some 0) true in
  let lines := [(200, "vpn connection lost"); (900, "tun0: removed")]%Z in
  timers (listen lines L) = timers L /\
  _debounce_timer (listen lines L) = _debounce_timer L /\
  triggered true (listen lines L) = triggered true L /\ listen lines L = L.
Proof.
  apply (listener_ignores_lines_when_disabled true
           [(200, "vpn connection lost"); (900, "tun0: removed")]%Z
           (mkListener (mkMach (mkWorker false (Some green) false 3)
                               host_wg0_online [])
                       [mkTimer 2500 trigger_check (Some 0%Z) (Some 100%Z)] (Some 0) true)).
  - reflexivity.
  - apply listen_listens.
Defined.

Lemma on_line_marks now line L :
  alive L = true -> enabled (worker (mach L)) = true -> quiet (mach L) ->
  qualifies line = true ->
  let L' := on_line now line L in
  alive L' = true /\ enabled (worker (mach L')) = true /\ quiet (mach L') /\
  is_resolving (worker (mach L')) = true /\
  last_status (worker (mach L')) =
    (if is_resolving (worker (mach L)) then last_status (worker (mach L))
     else None) /\
  api_count (worker (mach L')) = api_count (worker (mach L)) /\
  trace (mach L') = trace (mach L) ++
    (if is_resolving (worker (mach L)) then [] else [StatusChanged yellow]) ++
    [DebounceTimer 2500].
Proof.
  intros Ha Hen Hq Hl. unfold on_line. rewrite Ha, Hen, Hl. simpl.
  unfold note_change, emit_status_changed, set_is_resolving, set_last_status.
  rewrite run_bind, run_get_worker.
  destruct (is_resolving (worker (mach L))) eqn:Hr; simpl negb; cbn iota.
  - rewrite run_ret, run_prim_quiet by done. simpl.
    repeat split; try done. solve_quiet.
  - exec. simpl.
    repeat split; try done. solve_quiet. by rewrite <- app_assoc.
Qed.

Lemma listen_marks lines : forall L,
  alive L = true -> enabled (worker (mach L)) = true -> quiet (mach L) ->
  is_resolving (worker (mach L)) = true ->
  let L' := listen lines L in
  alive L' = true /\ enabled (worker (mach L')) = true /\ quiet (mach L') /\
  worker (mach L') = worker (mach L) /\
  trace (mach L') = trace (mach L) ++
    replicate (length (qualifying_times lines)) (DebounceTimer 2500).
Proof.
  induction lines as [|[now line] lines IH]; intros L Ha Hen Hq Hr.
  - simpl. rewrite app_nil_r. by repeat split.
  - rewrite qualifying_times_cons. unfold listen. simpl.
    fold (listen lines (on_line now line L)).
    destruct (qualifies line) eqn:Hl.
    + destruct (on_line_marks now line L Ha Hen Hq Hl)
        as (Ha' & Hen' & Hq' & Hr' & Hls & Hac & Ht).
      destruct (IH _ Ha' Hen' Hq' Hr') as (Ha2 & Hen2 & Hq2 & W2 & T2).
      repeat split; try done.
      * rewrite W2. rewrite Hr in Hls.
        destruct (worker (mach (on_line now line L))), (worker (mach L)).
        simpl in *. congruence.
      * rewrite T2, Ht, Hr. simpl. by rewrite <- app_assoc.
    + rewrite on_line_skip by done. by apply IH.
Qed.

(** X9. Between two passes, that is while no other thread writes the
    worker, the listener (enabled, nothing raising) emits the transient
    status at most once over the lines it reads: at the first qualifying
    line, and only if the worker was not already resolving; it then sets
    [is_resolving] and forgets [last_status]. Every qualifying line starts
    one 2500 ms timer, and the probe counter is untouched. (A pass that
    completes in between clears [is_resolving], and the next qualifying
    line then emits the transient status again.) *)
Theorem listener_marks_resolving_once lines L :
  alive L = true -> enabled (worker (mach L)) = true -> quiet (mach L) ->
  let n := length (qualifying_times lines) in
  let L' := listen lines L in
  emitted (mach L) (mach L') =
    (if (n =? 0) || is_resolving (worker (mach L)) then []
     else [StatusChanged yellow]) ++
    replicate n (DebounceTimer 2500) /\
  api_count (worker (mach L')) = api_count (worker (mach L)) /\
  (0 < n ->
   is_resolving (worker (mach L')) = true /\
   last_status (worker (mach L')) =
     if is_resolving (worker (mach L)) then last_status (worker (mach L))
     else None).
Proof.
  revert L. induction lines as [|[now line] lines IH]; intros L Ha Hen Hq.
  - simpl. split; [|split; [done|lia]]. unfold emitted. apply drop_all.
  - rewrite qualifying_times_cons. unfold listen. simpl.
    fold (listen lines (on_line now line L)).
    destruct (qualifies line) eqn:Hl.
    + destruct (on_line_marks now line L Ha Hen Hq Hl)
        as (Ha' & Hen' & Hq' & Hr' & Hls & Hac & Ht).
      destruct (listen_marks lines _ Ha' Hen' Hq' Hr')
        as (_ & _ & _ & W2 & T2).
      simpl. split; [|split].
      * apply emitted_app. rewrite T2, Ht.
        destruct (is_resolving (worker (mach L))); simpl;
          by rewrite <- app_assoc.
      * by rewrite W2.
      * intros _. by rewrite W2.
    + rewrite on_line_skip by done. by apply IH.
Qed.

Lemma listener_marks_resolving_once_witness :
  let L := mkListener (mkMach (mkWorker true (Some green) false 2)
                              host_wg0_online []) [] None true in
  let lines := [(0, "eth0: connected"); (400, "wlan0: scanning");
                (500, "vpn connection lost")]%Z in
  let n := length (qualifying_times lines) in
  let L' := listen lines L in
  emitted (mach L) (mach L') =
    (if (n =? 0) || is_resolving (worker (mach L)) then []
     else [StatusChanged yellow]) ++
    replicate n (DebounceTimer 2500) /\
  api_count (worker (mach L')) = api_count (worker (mach L)) /\
  (0 < n ->
   is_resolving (worker (mach L')) = true /\
   last_status (worker (mach L')) =
     if is_resolving (worker (mach L)) then last_status (worker (mach L))
     else None).
Proof.
  apply (listener_marks_resolving_once
           [(0, "eth0: connected"); (400, "wlan0: scanning");
            (500, "vpn connection lost")]%Z
           (mkListener (mkMach (mkWorker true (Some green) false 2)
                               host_wg0_online []) [] None true)).
  - reflexivity.
  - reflexivity.
  - unfold quiet. simpl. constructor.
Defined.

Lemma listen_dead lines : forall L, alive L = false -> listen lines L = L.
Proof.
  induction lines as [|tl lines IH]; intros L Ha; [reflexivity|].
  unfold listen. simpl. fold (listen lines (on_line tl.1 tl.2 L)).
  assert (Hd : on_line tl.1 tl.2 L = L) by (unfold on_line; by rewrite Ha).
  rewrite Hd. by apply IH.
Qed.

(** X10. A failure inside the loop of [_listen] ends the listener and loses
    the pending re-check: if a qualifying line arrives while a timer is
    pending and the next emission or [Timer.start] raises, the pending timer
    has already been cancelled and no started timer replaces it, so no pass
    is triggered; the listener logs "DEBUG: Monitor Error" and ignores every
    later line. *)
Theorem listener_stops_on_failure late now line L old t e :
  alive L = true ->
  enabled (worker (mach L)) = true ->
  qualifies line = true ->
  timers L = old ++ [mkTimer 2500 trigger_check (Some t) None] ->
  _debounce_timer L = Some (length old) ->
  Forall (fun T => fires_at late T = None) old ->
  (t <= now < t + 2500)%Z ->
  next_fault (mach L) = Some e ->
  let L' := on_line now line L in
  alive L' = false /\
  triggered late L' = [] /\
  (forall later, listen later L' = L') /\
  (next_fault (pop_fault (mach L)) = None ->
   emitted (mach L) (mach L') = [LogAdded ("DEBUG: Monitor Error: " +:+ e)]).
Proof.
  intros Ha Hen Hl Ht Hd Hold Hnow Hf L'.
  assert (Hcancel : fires_at late (timer_cancel now
                                (mkTimer 2500 trigger_check (Some t) None)) = None).
  { unfold timer_cancel. simpl. apply fires_at_cancelled_early. lia. }
  assert (HL' :
    alive L' = false /\ triggered late L' = [] /\
    (next_fault (pop_fault (mach L)) = None ->
     emitted (mach L) (mach L') = [LogAdded ("DEBUG: Monitor Error: " +:+ e)])).
  { assert (Hprim : forall ev, run (prim ev) (mach L) = (Raise e, pop_fault (mach L))).
    { intros ev. unfold run, prim. by rewrite Hf. }
    assert (Hnote : run note_change (mach L) =
                    if is_resolving (worker (mach L)) then (Ok tt, mach L)
                    else (Raise e, pop_fault (mach L))).
    { unfold note_change, emit_status_changed.
      rewrite run_bind, run_get_worker.
      destruct (is_resolving (worker (mach L))); simpl negb; cbn iota.
      - by rewrite run_ret.
      - by rewrite run_bind, Hprim. }
    subst L'. unfold on_line. rewrite Ha, Hen, Hl, Hd, Ht, Hnote.
    simpl negb. cbn iota. rewrite alter_last.
    destruct (is_resolving (worker (mach L))).
    - rewrite Hprim. unfold monitor_error, triggered. simpl.
      split; [reflexivity|]. split.
      + rewrite !firings_app, firings_none by done. unfold firings. simpl.
        by rewrite Hcancel.
      + intros Hn. unfold emit_log_added. rewrite (run_prim_ok _ _ Hn).
        by apply emitted_app.
    - unfold monitor_error, triggered. simpl.
      split; [reflexivity|]. split.
      + rewrite !firings_app, firings_none by done. unfold firings. simpl.
        by rewrite Hcancel.
      + intros Hn. unfold emit_log_added. rewrite (run_prim_ok _ _ Hn).
        by apply emitted_app. }
  destruct HL' as (H1 & H2 & H3).
  repeat split; try done. intros later. by apply listen_dead.
Qed.

Lemma listener_stops_on_failure_witness :
  let L := mkListener (mkMach (mkWorker true (Some green) false 1)
                              (with_faults [Some "receiver deleted"]
                                           host_wg0_online) [])
                      [mkTimer 2500 trigger_check (Some 0%Z) None] (Some 0) true in
  let L' := on_line 800 "tun0: removed" L in
  alive L' = false /\
  triggered true L' = [] /\
  (forall later, listen later L' = L') /\
  (next_fault (pop_fault (mach L)) = None ->
   emitted (mach L) (mach L') =
     [LogAdded ("DEBUG: Monitor Error: " +:+ "receiver deleted")]).
Proof.
  apply (listener_stops_on_failure true 800 "tun0: removed"
           (mkListener (mkMach (mkWorker true (Some green) false 1)
                               (with_faults [Some "receiver deleted"]
                                            host_wg0_online) [])
                       [mkTimer 2500 trigger_check (Some 0%Z) None] (Some 0) true)
           [] 0%Z "receiver deleted").
  - reflexivity.
  - reflexivity.
  - vm_compute. reflexivity.
  - reflexivity.
  - reflexivity.
  - constructor.
  - lia.
  - reflexivity.
Defined.

(** ** Further properties of the threads *)

Lemma after_step_is_step s i : can_step s i -> step s (after_step s i).
Proof.
  intros (t & Hi & Hfin & Hg). unfold after_step. rewrite Hi.
  destruct (thread_step (source t) (pc t) (shared s)) as [p' m'] eqn:E.
  by apply step_thread.
Qed.

Lemma thread_step_progress src p m :
  in_cs p = true ->
  steps_to_release (thread_step src p m).1 < steps_to_release p /\
  (stage_of p <> Some Release -> in_cs (thread_step src p m).1 = true).
Proof.
  intros Hcs. destruct p; simpl in *; try discriminate.
  - destruct (run mark_resolving m) as [[[]|e] m1]; simpl; split; (lia || done).
  - destruct (run probe m) as [[[v o]|e] m1]; simpl; split; (lia || done).
  - destruct (run (conclude src active_vpn is_online) m) as [[[]|e] m1];
      simpl; split; (lia || done).
  - destruct (run (on_failure e) m) as [r m1]; simpl; split; (lia || done).
  - split; [lia|done].
Qed.

Lemma holder_releases k : forall s i t,
  threads s !! i = Some t ->
  in_cs (pc t) = true ->
  steps_to_release (pc t) <= k ->
  exists n, n <= k /\
    rtc step s (Nat.iter n (fun s' => after_step s' i) s) /\
    lock (Nat.iter n (fun s' => after_step s' i) s) = None.
Proof.
  induction k as [|k IH]; intros s i t Hi Hcs Hk.
  - destruct (pc t); simpl in *; try discriminate; lia.
  - assert (Hcan : can_step s i).
    { exists t. split; [done|]. split; [by destruct (pc t)|].
      intros Hp. rewrite Hp in Hcs. discriminate. }
    pose proof (after_step_is_step s i Hcan) as Hstep.
    destruct (thread_step_progress (source t) (pc t) (shared s) Hcs) as [Hlt Hin].
    assert (Hlen : i < length (threads s)) by (eapply lookup_lt_Some; eauto).
    destruct (decide (stage_of (pc t) = Some Release)) as [Hrel|Hrel].
    + exists 1. split; [lia|]. simpl. split; [by apply rtc_once|].
      unfold after_step. rewrite Hi.
      destruct (thread_step (source t) (pc t) (shared s)). simpl.
      destruct (pc t); simpl in *; try discriminate. reflexivity.
    + assert (Hi' : threads (after_step s i) !! i =
                    Some (mkThread (source t)
                            (thread_step (source t) (pc t) (shared s)).1)).
      { unfold after_step. rewrite Hi.
        destruct (thread_step (source t) (pc t) (shared s)). simpl.
        by apply list_lookup_insert_eq. }
      destruct (IH (after_step s i) i _ Hi' (Hin Hrel)) as (n & Hn & Hr & Hl);
        [simpl; lia|].
      exists (S n). split; [lia|]. rewrite Nat.iter_succ_r.
      split; [|exact Hl]. by eapply rtc_l.
Qed.

(** X11. The lock is always given back: in every reachable state in which
    [_check_lock] is held, the thread that holds it reaches the release in
    at most five steps of its own, whatever its probes return and whatever
    raises (an exception inside the [with] block releases the lock too). *)
Theorem lock_holder_releases s i :
  reachable s ->
  lock s = Some i ->
  exists n, n <= 5 /\
    rtc step s (Nat.iter n (fun s' => after_step s' i) s) /\
    lock (Nat.iter n (fun s' => after_step s' i) s) = None.
Proof.
  intros Hr Hl. destruct (reachable_lock_inv s Hr) as (_ & Hb & _).
  destruct (Hb i Hl) as (t & Hi & Hcs).
  apply (holder_releases 5 s i t Hi Hcs).
  destruct (pc t); simpl; lia.
Qed.

Lemma two_triggers_locked_reachable : reachable two_triggers_locked.
Proof.
  exists two_triggers_start. split.
  - unfold initial. simpl. repeat split. repeat constructor.
  - apply (rtc_l _ _ (mkSys (mkMach fresh_worker host_wg0_online []) None
                            [mkThread Init AtLock; mkThread Manual AtEntry] [])).
    { exact (step_thread two_triggers_start 0 (mkThread Init AtEntry) AtLock
                         (mkMach fresh_worker host_wg0_online [])
                         eq_refl eq_refl (fun _ => eq_refl) eq_refl). }
    apply rtc_once.
    exact (step_thread (mkSys (mkMach fresh_worker host_wg0_online []) None
                              [mkThread Init AtLock; mkThread Manual AtEntry] [])
                       0 (mkThread Init AtLock) AtMark
                       (mkMach fresh_worker host_wg0_online [])
                       eq_refl eq_refl (fun _ => eq_refl) eq_refl).
Qed.

Lemma lock_holder_releases_witness :
  exists n, n <= 5 /\
    rtc step two_triggers_locked
        (Nat.iter n (fun s' => after_step s' 0) two_triggers_locked) /\
    lock (Nat.iter n (fun s' => after_step s' 0) two_triggers_locked) = None.
Proof.
  apply (lock_holder_releases two_triggers_locked 0).
  - apply two_triggers_locked_reachable.
  - reflexivity.
Defined.

(** X12. Passes cannot deadlock: in every reachable state either some
    thread can take a step or every thread has finished. *)
Theorem passes_never_deadlock s :
  reachable s ->
  (exists i, can_step s i) \/
  Forall (fun t => is_finished (pc t) = true) (threads s).
Proof.
  intros Hr. destruct (reachable_lock_inv s Hr) as (_ & Hb & _).
  destruct (lock s) as [i|] eqn:Hl.
  - destruct (Hb i eq_refl) as (t & Hi & Hcs). left. exists i, t.
    split; [done|]. split; [by destruct (pc t)|].
    intros Hp. rewrite Hp in Hcs. discriminate.
  - destruct (decide (Forall (fun t => is_finished (pc t) = true) (threads s)))
      as [Hall|Hnot]; [by right|left].
    apply not_Forall_Exists in Hnot; [|intros x; apply _].
    apply Exists_exists in Hnot as (t & Hin & Hnf).
    apply list_elem_of_lookup in Hin as (i & Hi).
    exists i, t. split; [done|]. split; [|done].
    simpl in Hnf. by destruct (is_finished (pc t)).
Qed.

Lemma passes_never_deadlock_witness :
  (exists i, can_step two_triggers_locked i) \/
  Forall (fun t => is_finished (pc t) = true) (threads two_triggers_locked).
Proof.
  apply (passes_never_deadlock two_triggers_locked).
  apply two_triggers_locked_reachable.
Defined.

(** ** The tray application *)

Lemma gui_run_app gs1 gs2 a : gui_run (gs1 ++ gs2) a = gui_run gs2 (gui_run gs1 a).
Proof. unfold gui_run. apply foldl_app. Qed.

Lemma delivered_app gs1 gs2 : delivered (gs1 ++ gs2) = delivered gs1 ++ delivered gs2.
Proof. unfold delivered. apply omap_app. Qed.

(** Splitting what the GUI thread processed at one delivered signal. *)
Lemma delivered_split gs : forall l1 ev l2,
  delivered gs = l1 ++ ev :: l2 ->
  exists g1 stamp g2,
    gs = g1 ++ Deliver stamp ev :: g2 /\ delivered g1 = l1 /\ delivered g2 = l2.
Proof.
  induction gs as [|g gs IH]; intros l1 ev l2 H.
  - by destruct l1.
  - destruct g as [stamp e|].
    + simpl in H. destruct l1 as [|x l1]; simpl in H.
      * injection H as -> H. exists [], stamp, gs. by repeat split.
      * injection H as -> H. destruct (IH _ _ _ H) as (g1 & st & g2 & -> & <- & <-).
        exists (Deliver stamp x :: g1), st, g2. by repeat split.
    + simpl in H. destruct (IH _ _ _ H) as (g1 & st & g2 & -> & <- & <-).
      exists (Tick :: g1), st, g2. by repeat split.
Qed.

Lemma gui_run_no_status gs : forall a,
  Forall (fun ev => is_status ev = false) (delivered gs) ->
  pulse_active (gui_run gs a) = pulse_active a /\
  (pulse_active a = false -> tray_icon (gui_run gs a) = tray_icon a) /\
  (tray_icon (gui_run gs a) = tray_icon a \/
   tray_icon (gui_run gs a) = Some (IconOf yellow) \/
   tray_icon (gui_run gs a) = Some yellow_alt).
Proof.
  induction gs as [|g gs IH]; intros a H; [by repeat split; auto|].
  change (gui_run (g :: gs) a) with (gui_run gs (gui_step a g)).
  assert (Hstep : pulse_active (gui_step a g) = pulse_active a /\
                  (pulse_active a = false -> tray_icon (gui_step a g) = tray_icon a) /\
                  (tray_icon (gui_step a g) = tray_icon a \/
                   tray_icon (gui_step a g) = Some (IconOf yellow) \/
                   tray_icon (gui_step a g) = Some yellow_alt)).
  { destruct g as [stamp ev|]; simpl.
    - simpl in H. destruct ev; try (by repeat split; auto).
      inversion H; subst. discriminate.
    - unfold pulse_tick. destruct (pulse_active a) eqn:Hp; simpl.
      + split; [done|]. split; [done|]. destruct (negb (pulse_state a)); auto.
      + by repeat split; auto. }
  assert (H' : Forall (fun ev => is_status ev = false) (delivered gs)).
  { destruct g as [stamp ev|]; simpl in H; [by inversion H|done]. }
  destruct Hstep as (S1 & S2 & S3). destruct (IH (gui_step a g) H') as (I1 & I2 & I3).
  split; [congruence|]. split.
  - intros Hp. rewrite I2 by congruence. by apply S2.
  - destruct I3 as [I3|I3]; [rewrite I3; exact S3|by right].
Qed.

(** X13. The indicator follows the last status signal, whatever else the
    GUI thread processes before and after it (other signals, time-outs of
    the pulse timer): after a status other than yellow the pulse timer is
    stopped and the tray shows that status; after yellow the pulse timer
    runs and the tray shows what it showed before or one of the two yellow
    frames. *)
Theorem indicator_follows_last_status pre stamp s post a :
  Forall (fun ev => is_status ev = false) (delivered post) ->
  let before := gui_run pre a in
  let a' := gui_run (pre ++ Deliver stamp (StatusChanged s) :: post) a in
  (s <> yellow ->
   pulse_active a' = false /\ tray_icon a' = Some (IconOf s)) /\
  (s = yellow ->
   pulse_active a' = true /\
   (tray_icon a' = tray_icon before \/
    tray_icon a' = Some (IconOf yellow) \/ tray_icon a' = Some yellow_alt)).
Proof.
  intros Hpost before a'. subst a'. rewrite gui_run_app. fold before.
  change (gui_run (Deliver stamp (StatusChanged s) :: post) before)
    with (gui_run post (update_icon s before)).
  destruct (gui_run_no_status post (update_icon s before) Hpost) as (H1 & H2 & H3).
  split.
  - intros Hs. unfold update_icon in *.
    rewrite bool_decide_eq_false_2 in * by done. simpl in *.
    split; [done|]. by apply H2.
  - intros ->. unfold update_icon in *.
    rewrite bool_decide_eq_true_2 in * by done.
    destruct (pulse_active before) eqn:Hp; simpl in *.
    + split; [congruence|exact H3].
    + split; [done|exact H3].
Qed.

Lemma indicator_follows_last_status_witness :
  let pre := [Deliver "12:00:01" (StatusChanged yellow); Tick; Tick] in
  let post := [Deliver "12:00:02" (LogAdded "STATUS: Insecure [Auto]"); Tick] in
  let before := gui_run pre app_init in
  let a' := gui_run (pre ++ Deliver "12:00:02" (StatusChanged blue) :: post)
                    app_init in
  (blue <> yellow ->
   pulse_active a' = false /\ tray_icon a' = Some (IconOf blue)) /\
  (blue = yellow ->
   pulse_active a' = true /\
   (tray_icon a' = tray_icon before \/
    tray_icon a' = Some (IconOf yellow) \/ tray_icon a' = Some yellow_alt)).
Proof.
  apply (indicator_follows_last_status
           [Deliver "12:00:01" (StatusChanged yellow); Tick; Tick]
           "12:00:02" blue
           [Deliver "12:00:02" (LogAdded "STATUS: Insecure [Auto]"); Tick]
           app_init).
  simpl. repeat constructor.
Defined.

Lemma gui_run_snoc gs g a : gui_run (gs ++ [g]) a = gui_step (gui_run gs a) g.
Proof. by rewrite gui_run_app. Qed.

(** The counter label shows the last count announced, if any. *)
Lemma gui_run_label gs a :
  api_label (gui_run gs a) =
  match last (counts_of (delivered gs)) with
  | Some n => "Total API Calls: " +:+ pretty (to_c_int n)
  | None => api_label a
  end.
Proof.
  induction gs as [|g gs IH] using rev_ind; [reflexivity|].
  rewrite gui_run_snoc, delivered_app. unfold counts_of in *.
  rewrite omap_app, last_app.
  destruct g as [stamp ev|]; simpl.
  - destruct ev; simpl; try exact IH; try reflexivity.
    rewrite <- IH. unfold update_icon. by repeat case_match.
  - unfold pulse_tick. destruct (pulse_active (gui_run gs a)); exact IH.
Qed.

(** The tray shows every requested notification, in order. *)
Lemma gui_run_shown gs a :
  shown (gui_run gs a) = shown a ++ messages_of (delivered gs).
Proof.
  induction gs as [|g gs IH] using rev_ind; [by rewrite app_nil_r|].
  rewrite gui_run_snoc, delivered_app. unfold messages_of in *.
  rewrite omap_app, app_assoc, <- IH.
  destruct g as [stamp ev|]; simpl.
  - destruct ev; simpl; rewrite ?app_nil_r; try reflexivity.
    unfold update_icon. by repeat case_match.
  - rewrite app_nil_r. unfold pulse_tick.
    by destruct (pulse_active (gui_run gs a)).
Qed.

Lemma omap_flag_nil {B} (f : Event -> option B) (Q : Event -> bool) l :
  (forall ev, Q ev = true -> f ev = None) ->
  Forall (fun ev => Q ev = true) l -> omap f l = [].
Proof.
  intros HQ F. induction F as [|a l Ha _ IH]; [reflexivity|].
  simpl. by rewrite (HQ a Ha).
Qed.

(** The trace of a pass around its classification signal. *)
Lemma pass_signals src m v o :
  enabled (worker m) = true ->
  quiet m ->
  (run probe m).1 = Ok (v, o) ->
  let m' := (run (perform_check src) m).2 in
  let c := (classify v o).1 in
  let fetch := bool_decide (c = blue) || (bool_decide (src = Manual) && o) in
  let notify :=
    bool_decide (classify v o = (blue, "Insecure"))
    && (negb (bool_decide (last_status (worker m) = Some blue))
        || negb (bool_decide (src = Auto))) in
  (exists before after,
     emitted m m' = before ++ StatusChanged c :: after /\
     Forall (fun ev => is_status ev = false) after) /\
  last (counts_of (emitted m m')) = Some (api_count (worker m')) /\
  messages_of (emitted m m') =
    (if notify then [mkTrayMessage dropped_title dropped_message Critical 0]
     else []).
Proof.
  intros Hen Hq Hp m' c fetch notify.
  destruct (pass_run src m v o Hen Hq Hp)
    as (m1 & files & evs & E & _ & W & T & Ff & Hevs).
  subst m'. rewrite E. change ((Ok tt, m1).2) with m1.
  rewrite (emitted_app m m1 _ T), W. cbn [api_count].
  fold c. fold fetch.
  assert (Hnotify :
    bool_decide (c = blue)
    && (negb (bool_decide (Some c = last_status (worker m))) || forced src)
    = notify).
  { subst notify c. destruct v, o, src, (last_status (worker m)) as [[]|];
      reflexivity. }
  rewrite Hnotify.
  split; [|split].
  - match goal with
    | |- context [?A ++ files ++ ?B ++ evs ++ [StatusChanged c] ++ ?R] =>
        exists (A ++ files ++ B ++ evs), R
    end.
    split; [by rewrite <- !app_assoc|].
    rewrite !Forall_app. repeat split.
    + destruct fetch; [|constructor].
      destruct (ip_outcome (world m)); by repeat constructor.
    + by repeat constructor.
    + destruct notify; by repeat constructor.
  - unfold counts_of. rewrite !omap_app.
    rewrite (omap_flag_nil _ is_file_event files) by (done || by intros []).
    destruct (is_resolving (worker m)), fetch, (ip_outcome (world m)), notify;
      destruct Hevs as [-> | [-> | ->]]; simpl; f_equal; lia.
  - unfold messages_of. rewrite !omap_app.
    rewrite (omap_flag_nil _ is_file_event files) by (done || by intros []).
    destruct (is_resolving (worker m)), fetch, (ip_outcome (world m)), notify;
      destruct Hevs as [-> | [-> | ->]]; reflexivity.
Qed.

(** X14. Once the GUI thread has processed the signals of an enabled pass
    that raised nothing, in the order they were emitted and with pulse
    time-outs anywhere in between, the pulse timer is stopped and the tray
    shows the icon of the classification, whatever it showed before. *)
Theorem indicator_after_pass src m v o gs a :
  enabled (worker m) = true ->
  quiet m ->
  (run probe m).1 = Ok (v, o) ->
  delivered gs = emitted m (run (perform_check src) m).2 ->
  pulse_active (gui_run gs a) = false /\
  tray_icon (gui_run gs a) = Some (IconOf (classify v o).1) /\
  (classify v o).1 <> yellow /\ (classify v o).1 <> grey.
Proof.
  intros Hen Hq Hp Hd.
  destruct (pass_signals src m v o Hen Hq Hp) as ((before & after & Hsplit & Hno) & _).
  rewrite Hsplit in Hd.
  destruct (delivered_split _ _ _ _ Hd) as (g1 & stamp & g2 & -> & _ & <-).
  rewrite gui_run_app.
  change (gui_run (Deliver stamp (StatusChanged (classify v o).1) :: g2)
                  (gui_run g1 a))
    with (gui_run g2 (update_icon (classify v o).1 (gui_run g1 a))).
  destruct (gui_run_no_status g2 (update_icon (classify v o).1 (gui_run g1 a)) Hno)
    as (H1 & H2 & _).
  assert (Hc : (classify v o).1 <> yellow /\ (classify v o).1 <> grey)
    by (by destruct v, o).
  unfold update_icon in *.
  rewrite bool_decide_eq_false_2 in * by apply Hc. simpl in *.
  split; [done|]. split; [by apply H2|exact Hc].
Qed.

Lemma indicator_after_pass_witness :
  let m := mkMach fresh_worker host_no_vpn [] in
  let gs := Tick :: map (Deliver "08:15:00")
                        (emitted m (run (perform_check Init) m).2) in
  pulse_active (gui_run gs app_init) = false /\
  tray_icon (gui_run gs app_init) = Some (IconOf (classify false true).1) /\
  (classify false true).1 <> yellow /\ (classify false true).1 <> grey.
Proof.
  apply (indicator_after_pass Init (mkMach fresh_worker host_no_vpn [])
                              false true).
  - reflexivity.
  - unfold quiet. simpl. constructor.
  - vm_compute. reflexivity.
  - vm_compute. reflexivity.
Defined.

Lemma to_c_int_small n : (Z.of_nat n < 2 ^ 31)%Z -> to_c_int n = Z.of_nat n.
Proof.
  intros H. unfold to_c_int.
  rewrite Z.mod_small by lia. lia.
Qed.

Lemma pretty_of_nat (n : nat) : pretty (Z.of_nat n) = pretty n.
Proof. by destruct n. Qed.

(** X15. Once the GUI thread has processed the signals of a pass that
    raised nothing, and as long as the probe counter is below 2^31 (the
    signal carries a 32-bit int), the counter label shows the worker's probe
    counter: "Total API Calls: " followed by [api_count] in decimal. When
    the pass did not run (monitoring disabled) the label is unchanged. *)
Theorem api_label_after_pass src m gs a :
  quiet m ->
  (Z.of_nat (api_count (worker (run (perform_check src) m).2)) < 2 ^ 31)%Z ->
  delivered gs = emitted m (run (perform_check src) m).2 ->
  api_label (gui_run gs a) =
    if enabled (worker m)
    then "Total API Calls: " +:+
         pretty (api_count (worker (run (perform_check src) m).2))
    else api_label a.
Proof.
  intros Hq Hsmall Hd. rewrite gui_run_label, Hd.
  destruct (enabled (worker m)) eqn:Hen.
  - destruct (probe_quiet m Hq) as (v & o & mp & _ & _ & Ep & _).
    assert (Hp : (run probe m).1 = Ok (v, o)) by (by rewrite Ep).
    destruct (pass_signals src m v o Hen Hq Hp) as (_ & Hlast & _).
    by rewrite Hlast, to_c_int_small, pretty_of_nat.
  - assert (E : run (perform_check src) m = (Ok tt, m)).
    { unfold perform_check. by rewrite run_bind, run_get_worker, Hen. }
    rewrite E. unfold emitted. simpl. by rewrite drop_all.
Qed.

Lemma api_label_after_pass_witness :
  let m := mkMach fresh_worker host_wg0_online [] in
  let gs := map (Deliver "08:15:00") (emitted m (run (perform_check Manual) m).2) in
  api_label (gui_run gs app_init) =
    if enabled (worker m)
    then "Total API Calls: " +:+
         pretty (api_count (worker (run (perform_check Manual) m).2))
    else api_label app_init.
Proof.
  apply (api_label_after_pass Manual (mkMach fresh_worker host_wg0_online [])).
  - unfold quiet. simpl. constructor.
  - vm_compute. reflexivity.
  - vm_compute. reflexivity.
Defined.

(** X16. The "VPN DROPPED" notification of a pass reaches the tray as one
    message with the Critical icon and a time-out of 0 (it is not dismissed
    automatically); a pass that raises nothing shows that message exactly
    when it is classified Insecure and either the previous status was not
    Insecure or the source is not Auto, and shows no other message. *)
Theorem dropped_notification_is_critical src m v o gs a :
  enabled (worker m) = true ->
  quiet m ->
  (run probe m).1 = Ok (v, o) ->
  delivered gs = emitted m (run (perform_check src) m).2 ->
  shown (gui_run gs a) =
    shown a ++
    (if bool_decide (classify v o = (blue, "Insecure"))
        && (negb (bool_decide (last_status (worker m) = Some blue))
            || negb (bool_decide (src = Auto)))
     then [mkTrayMessage dropped_title dropped_message Critical 0]
     else []).
Proof.
  intros Hen Hq Hp Hd. rewrite gui_run_shown, Hd.
  destruct (pass_signals src m v o Hen Hq Hp) as (_ & _ & Hmsg).
  by rewrite Hmsg.
Qed.

Lemma dropped_notification_is_critical_witness :
  let m := mkMach (mkWorker true (Some green) true 7) host_no_vpn [] in
  let gs := map (Deliver "08:15:00") (emitted m (run (perform_check Auto) m).2) in
  shown (gui_run gs app_init) =
    shown app_init ++
    (if bool_decide (classify false true = (blue, "Insecure"))
        && (negb (bool_decide (last_status (worker m) = Some blue))
            || negb (bool_decide (Auto = Auto)))
     then [mkTrayMessage dropped_title dropped_message Critical 0]
     else []).
Proof.
  apply (dropped_notification_is_critical Auto
           (mkMach (mkWorker true (Some green) true 7) host_no_vpn [])
           false true).
  - reflexivity.
  - unfold quiet. simpl. constructor.
  - vm_compute. reflexivity.
  - vm_compute. reflexivity.
Defined.

(** X17. Two consecutive calls of [toggle_monitoring] give back the
    [enabled] flag and the text of the menu entry, start exactly one pass
    with source Toggle, and add two lines to the log window; lock, history
    and the threads already there are untouched. Starting from enabled, the
    tray is left showing the grey icon with the pulse stopped until that
    pass reports. *)
Theorem toggle_monitoring_twice st1 st2 d :
  let d2 := toggle_monitoring st2 (toggle_monitoring st1 d) in
  let en := enabled (worker (shared (sys d))) in
  enabled (worker (shared (sys d2))) = en /\
  threads (sys d2) = threads (sys d) ++ [mkThread Toggle AtEntry] /\
  lock (sys d2) = lock (sys d) /\ history (sys d2) = history (sys d) /\
  toggle_act (app d2) =
    (if en then "Disable Monitoring" else "Enable Monitoring") /\
  length (text_area (app d2)) = length (text_area (app d)) + 2 /\
  (en = true ->
   tray_icon (app d2) = Some (IconOf grey) /\ pulse_active (app d2) = false).
Proof.
  destruct d as [a [m l ts h]]. unfold toggle_monitoring. simpl.
  destruct (enabled (worker m)) eqn:Hen; simpl.
  - repeat split; try done. rewrite !length_app. simpl. lia.
  - repeat split; try done.
    + unfold update_icon. simpl. repeat case_match; simpl;
        rewrite !length_app; simpl; lia.
Qed.

Lemma toggle_monitoring_reachable st d :
  rtc step (sys d) (sys (toggle_monitoring st d)).
Proof.
  destruct d as [a s]. unfold toggle_monitoring. simpl.
  destruct (negb (enabled (worker (shared s)))) eqn:Hen; simpl.
  - eapply rtc_l; [apply step_outside, outside_toggle|].
    simpl. rewrite Hen. apply rtc_once.
    exact (step_spawn (mkSys (set_enabled true (shared s)) (lock s) (threads s)
                             (history s)) Toggle).
  - apply rtc_once.
    pose proof (step_outside s _ (outside_toggle (shared s))) as H.
    by rewrite Hen in H.
Qed.

(** X18. [toggle_monitoring] writes nothing of the worker but [enabled],
    takes no lock and moves no thread: the other worker fields, the world,
    the trace, the lock, the log of critical-section steps and every
    existing thread are as before, so the state it leaves is reachable
    whenever the one it found was, and passes stay mutually exclusive. *)
Theorem toggle_monitoring_frame st d :
  reachable (sys d) ->
  let d' := toggle_monitoring st d in
  let m := shared (sys d) in
  let m' := shared (sys d') in
  enabled (worker m') = negb (enabled (worker m)) /\
  last_status (worker m') = last_status (worker m) /\
  is_resolving (worker m') = is_resolving (worker m) /\
  api_count (worker m') = api_count (worker m) /\
  world m' = world m /\ trace m' = trace m /\
  lock (sys d') = lock (sys d) /\ history (sys d') = history (sys d) /\
  threads (sys d) `prefix_of` threads (sys d') /\
  reachable (sys d') /\
  (forall i j ti tj,
     threads (sys d') !! i = Some ti -> threads (sys d') !! j = Some tj ->
     in_cs (pc ti) = true -> in_cs (pc tj) = true -> i = j).
Proof.
  intros Hr d' m m'.
  assert (Hr' : reachable (sys d')).
  { destruct Hr as (s0 & H0 & Hrtc). exists s0. split; [done|].
    etrans; [exact Hrtc|apply toggle_monitoring_reachable]. }
  assert (Hfields :
    enabled (worker m') = negb (enabled (worker m)) /\
    last_status (worker m') = last_status (worker m) /\
    is_resolving (worker m') = is_resolving (worker m) /\
    api_count (worker m') = api_count (worker m) /\
    world m' = world m /\ trace m' = trace m /\
    lock (sys d') = lock (sys d) /\ history (sys d') = history (sys d) /\
    threads (sys d) `prefix_of` threads (sys d')).
  { subst d' m m'. destruct d as [a s]. unfold toggle_monitoring. simpl.
    destruct (negb (enabled (worker (shared s)))) eqn:Hen; simpl;
      repeat split; try done; try (by rewrite Hen).
    by eexists. }
  destruct Hfields as (F1 & F2 & F3 & F4 & F5 & F6 & F7 & F8 & F9).
  repeat split; try done.
  intros i j ti tj Hi Hj Hci Hcj.
  destruct (reachable_lock_inv _ Hr') as (Ha & _ & _).
  pose proof (Ha i ti Hi Hci). pose proof (Ha j tj Hj Hcj). congruence.
Qed.

Lemma toggle_monitoring_frame_witness :
  let d := mkDesk app_init two_triggers_locked in
  let d' := toggle_monitoring "09:30:00" d in
  let m := shared (sys d) in
  let m' := shared (sys d') in
  enabled (worker m') = negb (enabled (worker m)) /\
  last_status (worker m') = last_status (worker m) /\
  is_resolving (worker m') = is_resolving (worker m) /\
  api_count (worker m') = api_count (worker m) /\
  world m' = world m /\ trace m' = trace m /\
  lock (sys d') = lock (sys d) /\ history (sys d') = history (sys d) /\
  threads (sys d) `prefix_of` threads (sys d') /\
  reachable (sys d') /\
  (forall i j ti tj,
     threads (sys d') !! i = Some ti -> threads (sys d') !! j = Some tj ->
     in_cs (pc ti) = true -> in_cs (pc tj) = true -> i = j).
Proof.
  apply (toggle_monitoring_frame "09:30:00" (mkDesk app_init two_triggers_locked)).
  apply two_triggers_locked_reachable.
Defined.

(** X19. [perform_check] reads [enabled] only on line 87. When monitoring
    is switched off while a pass is about to classify, the tray first shows
    the grey icon, and then the pass still emits its classification: once
    its signals are processed the tray shows that status although
    monitoring is disabled. *)
Theorem pass_in_flight_overrides_disabled st d i src v o gs :
  enabled (worker (shared (sys d))) = true ->
  threads (sys d) !! i = Some (mkThread src (AtConclude v o)) ->
  quiet (shared (sys d)) ->
  is_resolving (worker (shared (sys d))) = true ->
  let d1 := toggle_monitoring st d in
  let s2 := after_step (sys d1) i in
  delivered gs = emitted (shared (sys d1)) (shared s2) ->
  tray_icon (app d1) = Some (IconOf grey) /\
  enabled (worker (shared s2)) = false /\
  last_status (worker (shared s2)) = Some (classify v o).1 /\
  tray_icon (gui_run gs (app d1)) = Some (IconOf (classify v o).1) /\
  pulse_active (gui_run gs (app d1)) = false.
Proof.
  intros Hen Hi Hq Hr d1 s2.
  destruct d as [a [m l ts h]]. simpl in *.
  subst d1 s2. unfold toggle_monitoring. simpl. rewrite Hen. simpl.
  unfold after_step. simpl. rewrite Hi. simpl.
  assert (Hq1 : quiet (set_enabled false m)) by solve_quiet.
  assert (Hr1 : is_resolving (worker (set_enabled false m)) = true) by done.
  destruct (conclude_run src v o _ Hq1 Hr1) as (m' & E & _ & W & T).
  rewrite E. simpl. intros Hd.
  rewrite (emitted_app _ _ _ T) in Hd.
  change ([StatusChanged (classify v o).1] ++ ?l)
    with ([] ++ StatusChanged (classify v o).1 :: l) in Hd.
  destruct (delivered_split _ _ _ _ Hd) as (g1 & stamp & g2 & -> & Hg1 & Hg2).
  assert (Hno : Forall (fun ev => is_status ev = false) (delivered g2)).
  { rewrite Hg2. rewrite !Forall_app. repeat split.
    - match goal with |- context [if ?b then _ else _] => destruct b end;
        [|constructor].
      destruct (ip_outcome (world (set_enabled false m))); by repeat constructor.
    - by repeat constructor.
    - match goal with |- context [if ?b then _ else _] => destruct b end;
        by repeat constructor. }
  rewrite gui_run_app.
  change (gui_run (Deliver stamp (StatusChanged (classify v o).1) :: g2) ?x)
    with (gui_run g2 (update_icon (classify v o).1 x)).
  match goal with |- context [gui_run g2 ?x] =>
    destruct (gui_run_no_status g2 x Hno) as (H1 & H2 & _) end.
  assert (Hc : (classify v o).1 <> yellow) by (by destruct v, o).
  unfold update_icon in H1, H2 |- *.
  rewrite (bool_decide_eq_false_2 ((classify v o).1 = yellow)) in * by done.
  simpl in *.
  split; [done|]. split; [by rewrite W|]. split; [by rewrite W|].
  split; [by apply H2|done].
Qed.

Lemma pass_in_flight_overrides_disabled_witness :
  let d := mkDesk app_init
                  (mkSys (mkMach (mkWorker true None true 1) host_wg0_online [])
                         (Some 0) [mkThread Init (AtConclude true true)]
                         [(0, Acquire); (0, Mark); (0, Probe)]) in
  let d1 := toggle_monitoring "09:30:00" d in
  let s2 := after_step (sys d1) 0 in
  let gs := map (Deliver "09:30:01") (emitted (shared (sys d1)) (shared s2)) in
  tray_icon (app d1) = Some (IconOf grey) /\
  enabled (worker (shared s2)) = false /\
  last_status (worker (shared s2)) = Some (classify true true).1 /\
  tray_icon (gui_run gs (app d1)) = Some (IconOf (classify true true).1) /\
  pulse_active (gui_run gs (app d1)) = false.
Proof.
  apply (pass_in_flight_overrides_disabled "09:30:00"
           (mkDesk app_init
                   (mkSys (mkMach (mkWorker true None true 1) host_wg0_online [])
                          (Some 0) [mkThread Init (AtConclude true true)]
                          [(0, Acquire); (0, Mark); (0, Probe)]))
           0 Init true true).
  - reflexivity.
  - reflexivity.
  - unfold quiet. simpl. constructor.
  - reflexivity.
  - vm_compute. reflexivity.
Defined.

(** ** The autostart entry *)

Lemma dirname_autostart :
  dirname (autostart_path install_u) = "/home/u/.config/autostart".
Proof. reflexivity. Qed.

(** X21. Enabling autostart never raises, whatever the operating system
    answers: a failure of [makedirs], of opening, writing or closing the
    file is caught and reported, and exactly one line is added to the log
    window. That line is "SYSTEM: Autostart enabled." exactly when none of
    the five calls failed, in which case they were made in order on the
    directory of the autostart path and on the path itself, the text
    written being the desktop entry that names the program; otherwise it is
    "ERROR: Could not create autostart: " followed by an error the system
    raised. Whatever fails, [makedirs(dirname, exist_ok=True)] is the first
    call, no other call than those five is attempted (nothing is removed),
    a file that was opened is closed in the end, and when [makedirs] fails
    nothing else is attempted. *)
Theorem autostart_enable_contained i st a o :
  let r := toggle_startup true i st (a, o) in
  let made := calls_made o r.2.2 in
  r.1 = Ok tt /\
  (exists line,
     text_area r.2.1 = text_area a ++ ["[" +:+ st +:+ "] " +:+ line] /\
     if no_error 5 o
     then line = "SYSTEM: Autostart enabled." /\ made = entry_calls i
     else exists e, Some e ∈ take 5 (raises o) /\
                    line = "ERROR: Could not create autostart: " +:+ e) /\
  head made = Some (MakeDirs (dirname (autostart_path i)) true) /\
  made `sublist_of` entry_calls i /\
  (no_error 2 o = true -> last made = Some (FileClose (autostart_path i))) /\
  (no_error 1 o = false ->
   made = [MakeDirs (dirname (autostart_path i)) true]).
Proof.
  destruct o as [rs ex cs].
  unfold toggle_startup, create_entry, write_entry, os_call, calls_made,
    entry_calls, no_error.
  destruct rs as [|[e1|] [|[e2|] [|[e3|] [|[e4|] [|[e5|] rs]]]]]; simpl;
    rewrite <- ?app_assoc, drop_app_length; simpl.
  all: split; [reflexivity|].
  all: split;
    [eexists; split; [reflexivity|];
     first [ by split
           | eexists; split; [|reflexivity];
             repeat first [ apply list_elem_of_here
                          | apply list_elem_of_further ] ] |].
  all: split; [reflexivity|].
  all: split;
    [repeat first [ apply sublist_nil_l | apply sublist_skip
                  | apply sublist_cons ] |].
  all: split; by intros.
Qed.

(** X22. Disabling autostart asks [os.path.exists] first. When the answer
    is no, nothing else is called, nothing is logged and the call returns.
    When it is yes, [os.remove] is called on the autostart path and on
    nothing else: if it succeeds the log window gains "SYSTEM: Autostart
    disabled."; if it raises (as it does when the path is a directory, of
    which [os.path.exists] is true as well), nothing catches the exception:
    it leaves [toggle_startup] and nothing is logged. *)
Theorem autostart_disable i st a o :
  let p := autostart_path i in
  let r := toggle_startup false i st (a, o) in
  let made := calls_made o r.2.2 in
  if exists_answer o p then
    made = [PathExists p; Remove p] /\
    match head (raises o) with
    | Some (Some e) => r.1 = Raise e /\ r.2.1 = a
    | _ =>
        r.1 = Ok tt /\
        text_area r.2.1 =
          text_area a ++ ["[" +:+ st +:+ "] " +:+ "SYSTEM: Autostart disabled."]
    end
  else r.1 = Ok tt /\ r.2.1 = a /\ made = [PathExists p].
Proof.
  destruct o as [rs ex cs].
  unfold toggle_startup, os_path_exists, os_call, calls_made. simpl.
  destruct (ex (autostart_path i)); simpl.
  - destruct rs as [|[e|] rs]; simpl;
      rewrite <- ?app_assoc, drop_app_length; by repeat split.
  - by rewrite drop_app_length.
Qed.

(** The autostart path holds a directory: [os.path.exists] answers yes,
    [os.remove] raises, and the exception leaves [toggle_startup]. *)
Example autostart_disable_on_directory :
  let o := mkOs [Some "[Errno 21] Is a directory"] (fun _ => true) [] in
  let r := toggle_startup false install_u "10:05:00" (app_init, o) in
  r.1 = Raise "[Errno 21] Is a directory" /\
  text_area r.2.1 = [] /\
  os_calls r.2.2 = [PathExists (autostart_path install_u);
                    Remove (autostart_path install_u)].
Proof. vm_compute. repeat split. Qed.

(** A path whose parent cannot be created: the entry is not opened, and
    the failure is reported in the log window. *)
Example autostart_enable_makedirs_fails :
  let o := mkOs [Some "[Errno 13] Permission denied: '/home/u/.config'"]
                (fun _ => false) [] in
  let r := toggle_startup true install_u "10:00:00" (app_init, o) in
  r.1 = Ok tt /\
  text_area r.2.1 =
    ["[10:00:00] ERROR: Could not create autostart: [Errno 13] Permission denied: '/home/u/.config'"] /\
  os_calls r.2.2 = [MakeDirs "/home/u/.config/autostart" true].
Proof. vm_compute. repeat split. Qed.

(** ** What a pass never does *)

Lemma steady_ret {A} (a : A) : steady (ret a).
Proof. intros m. rewrite run_ret. by repeat split. Qed.

Lemma steady_bind {A B} (c : M A) (k : A -> M B) :
  steady c -> (forall a, steady (k a)) -> steady (bind c k).
Proof.
  intros Hc Hk m. rewrite run_bind. specialize (Hc m).
  destruct (run c m) as [[a|e] m1]; simpl in *; [|exact Hc].
  destruct Hc as (E1 & C1 & T1). destruct (Hk a m1) as (E2 & C2 & T2).
  split; [congruence|]. split; [lia|]. by etrans.
Qed.

Lemma steady_try_except {A} (c : M A) h :
  steady c -> (forall e, steady (h e)) -> steady (try_except c h).
Proof.
  intros Hc Hh m. rewrite run_try_except. specialize (Hc m).
  destruct (run c m) as [[a|e] m1]; simpl in *; [exact Hc|].
  destruct Hc as (E1 & C1 & T1). destruct (Hh e m1) as (E2 & C2 & T2).
  split; [congruence|]. split; [lia|]. by etrans.
Qed.

Lemma steady_prim ev : steady (prim ev).
Proof.
  intros m. unfold run, prim. destruct (next_fault m); simpl.
  - by repeat split.
  - repeat split; try done. by apply prefix_app_r.
Qed.

Lemma steady_get_worker : steady get_worker.
Proof. intros m. by repeat split. Qed.

Lemma steady_set_is_resolving b : steady (set_is_resolving b).
Proof. intros m. by repeat split. Qed.

Lemma steady_set_last_status st : steady (set_last_status st).
Proof. intros m. by repeat split. Qed.

Lemma steady_if {A} (b : bool) (c1 c2 : M A) :
  steady c1 -> steady c2 -> steady (if b then c1 else c2).
Proof. by destruct b. Qed.

Create HintDb steady.
#[global] Hint Resolve steady_ret steady_prim steady_get_worker
  steady_set_is_resolving steady_set_last_status : steady.
#[global] Hint Extern 1 (steady (bind _ _)) =>
  (apply steady_bind; [|intros ?]) : steady.
#[global] Hint Extern 1 (steady (if _ then _ else _)) =>
  (apply steady_if) : steady.
#[global] Hint Extern 1 (steady (try_except _ _)) =>
  (apply steady_try_except; [|intros ?]) : steady.

Lemma steady_track_api : steady _track_api.
Proof.
  intros m. unfold _track_api, emit_api_called, set_api_count.
  rewrite run_bind, run_get_worker, run_bind, run_set_worker, run_bind,
    run_get_worker.
  match goal with |- context [run (prim ?ev) ?m2] =>
    destruct (steady_prim ev m2) as (E & C & T) end.
  simpl in *. split; [done|]. split; [lia|done].
Qed.

Lemma steady_urlopen_ip : steady urlopen_ip.
Proof.
  intros m. unfold run, urlopen_ip. simpl.
  repeat split; try done. by apply prefix_app_r.
Qed.

Lemma steady_urlopen_connectivity : steady urlopen_connectivity.
Proof.
  intros m. unfold run, urlopen_connectivity. simpl.
  repeat split; try done. by apply prefix_app_r.
Qed.

Lemma steady_is_interface_active iface : steady (_is_interface_active iface).
Proof.
  intros m. unfold run, _is_interface_active. simpl.
  repeat split; try done. by apply prefix_app_r.
Qed.

Lemma steady_list_interfaces : steady list_interfaces.
Proof.
  intros m. unfold run, list_interfaces. simpl.
  repeat split; try done. by apply prefix_app_r.
Qed.

#[global] Hint Resolve steady_track_api steady_urlopen_ip
  steady_urlopen_connectivity steady_is_interface_active
  steady_list_interfaces : steady.

Lemma steady_attempts range : steady (attempts range).
Proof.
  induction range as [|i rest IH]; simpl; [auto with steady|].
  unfold time_sleep. auto 10 with steady.
Qed.

Lemma steady_any_active ifaces : steady (any_active ifaces).
Proof.
  induction ifaces as [|i rest IH]; simpl; auto 10 with steady.
Qed.

#[global] Hint Resolve steady_attempts steady_any_active : steady.

Lemma steady_has_internet : steady _has_internet.
Proof. unfold _has_internet, emit_log_added. auto 10 with steady. Qed.

Lemma steady_get_public_ip : steady _get_public_ip.
Proof.
  unfold _get_public_ip, emit_log_added.
  apply steady_bind; [auto with steady|]. intros _.
  apply steady_bind; [auto with steady|]. intros _.
  apply steady_bind; [auto with steady|]. intros [body|e]; auto 10 with steady.
Qed.

Lemma steady_scan : steady scan.
Proof.
  unfold scan. apply steady_bind; [auto with steady|]. intros l.
  destruct (List.filter is_vpn_candidate l); auto with steady.
Qed.

#[global] Hint Resolve steady_has_internet steady_get_public_ip steady_scan
  : steady.

Lemma steady_check_body src : steady (check_body src).
Proof.
  unfold check_body, probe. apply steady_bind; [auto 10 with steady|].
  intros [v o]. simpl. unfold conclude.
  destruct (classify v o) as [c label].
  apply steady_bind; [auto with steady|]. intros w.
  apply steady_bind.
  - apply steady_if; [|auto with steady].
    unfold emit_status_changed, emit_log_added, ip_suffix_for.
    apply steady_bind; [auto with steady|]. intros _.
    apply steady_bind; [auto with steady|]. intros _.
    apply steady_bind; [auto with steady|]. intros _.
    apply steady_bind; [|auto with steady].
    apply steady_if; [|auto with steady].
    apply steady_bind; [auto with steady|].
    intros [ip|]; [destruct (Text.truthy ip)|]; auto with steady.
  - intros _. unfold start_notification_timer. auto with steady.
Qed.

Lemma steady_perform_check src : steady (perform_check src).
Proof.
  unfold perform_check. apply steady_bind; [auto with steady|]. intros w.
  apply steady_if; [auto with steady|].
  apply steady_bind.
  - unfold mark_resolving, emit_status_changed. auto 10 with steady.
  - intros _. apply steady_try_except; [apply steady_check_body|].
    intros e. unfold on_failure, emit_log_added, emit_status_changed.
    auto 10 with steady.
Qed.

(** X24. Whatever the world answers and whatever raises, a pass never
    writes [enabled], never lowers the probe counter and never removes
    anything from what it has already emitted; this holds for passes that
    end in the handler and for those whose exception leaves
    [perform_check] as well. *)
Theorem pass_never_undoes src m :
  enabled (worker (run (perform_check src) m).2) = enabled (worker m) /\
  api_count (worker m) <= api_count (worker (run (perform_check src) m).2) /\
  trace m `prefix_of` trace (run (perform_check src) m).2.
Proof. apply steady_perform_check. Qed.
